(** * ai_tutor: prompt assembly and the resilient completion client

    A shallow embedding of [ai_tutor.py] and the properties of its
    test-report extraction, prompt assembly, locale loading and retry loop.

    Modelling conventions.
    - Python values coming out of [json.loads] are the inductive [pyval];
      a [dict] is an association list in insertion order (keys of a Python
      dict are unique: the theorems that need it assume [NoDup] on the keys).
    - A Python exception is the [Raise] branch of [result].
    - Seconds ([time.monotonic], [retry_delay_sec], [timeout_sec]) are exact
      rationals [Q]; the rounding of binary floating point is outside the
      model.  [retry_delay_sec] is a float, as annotated: multiplying it by
      [2 ** attempt] raises [OverflowError] once the integer does not
      convert to a float, that is from [attempt = 1024] on.
    - The clock, the endpoint and [time.sleep] are an environment.  The clock
      and the endpoint answer from the history of the run; [requests.post]
      always comes back with a response (a transport that raises is outside
      the model).  What [time.sleep] does with a length, sleep or raise
      ([ValueError], [OverflowError]), is the environment's answer for that
      length, so that what is proved for every environment holds of the
      interpreter's [time.sleep].
    - A [pathlib.Path] is its tuple of parts, in the POSIX flavour.
    - [logging] calls write to the log only and are left out. *)

From Stdlib Require Import String Ascii List ZArith QArith Bool Lia.
Import ListNotations.

Open Scope string_scope.
Open Scope list_scope.

(** String concatenation, kept apart from the append of lists. *)
Infix "+++" := String.append (right associativity, at level 60).

(* ------------------------------------------------------------------ *)
(** ** Python values and exceptions *)

#[warnings="-register-all"]
Inductive pyval : Type :=
| PNone
| PBool (b : bool)
| PInt (z : Z)
| PFloat (q : Q)
| PStr (s : string)
| PList (l : list pyval)
| PDict (d : list (string * pyval)).

Definition pydict := list (string * pyval).

Inductive exn : Type :=
| KeyError (key : pyval)
| IndexError
| TypeError
| AssertionError (msg : string)
| FileNotFoundError
| IsADirectoryError
| JSONDecodeError
| ValueError
| OverflowError.

Inductive result (A : Type) : Type :=
| Ok (a : A)
| Raise (e : exn).

Arguments Ok {A} a.
Arguments Raise {A} e.

Definition rbind {A B} (m : result A) (f : A -> result B) : result B :=
  match m with
  | Ok a => f a
  | Raise e => Raise e
  end.

Declare Scope result_scope.
Delimit Scope result_scope with res.
Notation "x <- m ;; k" := (rbind m (fun x => k))
  (at level 61, m at next level, right associativity) : result_scope.

(** The line feed of the source's ["\n"]. *)
Definition LF : string := String "010"%char EmptyString.

(** [sep.join(l)] *)
Definition join (sep : string) (l : list string) : string := String.concat sep l.

Fixpoint dict_get (k : string) (d : pydict) : option pyval :=
  match d with
  | [] => None
  | (k', v) :: d' => if String.eqb k k' then Some v else dict_get k d'
  end.

(** [for k in d] walks the keys in insertion order. *)
Definition dict_keys (d : pydict) : list string := map fst d.

(** [v[k]] for a string key [k]. *)
Definition py_getitem (v : pyval) (k : string) : result pyval :=
  match v with
  | PDict d =>
      match dict_get k d with
      | Some x => Ok x
      | None => Raise (KeyError (PStr k))
      end
  | _ => Raise TypeError
  end.

Fixpoint chars (s : string) : list pyval :=
  match s with
  | EmptyString => []
  | String c s' => PStr (String c EmptyString) :: chars s'
  end.

(** [v[0]] *)
Definition py_first (v : pyval) : result pyval :=
  match v with
  | PList l => match l with x :: _ => Ok x | [] => Raise IndexError end
  | PStr s => match chars s with x :: _ => Ok x | [] => Raise IndexError end
  | PDict _ => Raise (KeyError (PInt 0))
  | _ => Raise TypeError
  end.

(** The items a [for] loop (or a comprehension) visits. *)
Definition py_iter (v : pyval) : result (list pyval) :=
  match v with
  | PList l => Ok l
  | PDict d => Ok (map PStr (dict_keys d))
  | PStr s => Ok (chars s)
  | _ => Raise TypeError
  end.

(** [v != s] for a string literal [s]. *)
Definition py_ne_str (v : pyval) (s : string) : bool :=
  match v with
  | PStr t => negb (String.eqb t s)
  | _ => true
  end.

(** [s + v] with a string on the left: only a string can be added. *)
Definition str_add (s : string) (v : pyval) : result string :=
  match v with
  | PStr t => Ok (s +++ t)
  | _ => Raise TypeError
  end.

(** [v + s] with a string literal on the right. *)
Definition add_str (v : pyval) (s : string) : result string :=
  match v with
  | PStr t => Ok (t +++ s)
  | _ => Raise TypeError
  end.

(* ------------------------------------------------------------------ *)
(** ** [collect_longrepr] *)

Section CollectLongrepr.
Local Open Scope result_scope.

(** The loop [for k in r] of [collect_longrepr], for the record [r = PDict d]
    with [outcome = r['outcome']]; [longrepr_list] is the list being
    appended to. *)
Fixpoint collect_keys (outcome : pyval) (d : pydict) (ks : list string)
    (longrepr_list : list string) : result (list string) :=
  match ks with
  | [] => Ok longrepr_list
  | k :: ks' =>
      rk <- py_getitem (PDict d) k ;;
      match rk with
      | PDict m =>
          match dict_get "longrepr" m with
          | Some lr =>
              s1 <- add_str outcome ":" ;;
              s2 <- str_add (s1 +++ k +++ ":") lr ;;
              collect_keys outcome d ks' (longrepr_list ++ [s2])
          | None => collect_keys outcome d ks' longrepr_list
          end
      | _ => collect_keys outcome d ks' longrepr_list
      end
  end.

(** One turn of the loop [for r in data['tests']]. *)
Definition collect_record (r : pyval) (longrepr_list : list string)
    : result (list string) :=
  outcome <- py_getitem r "outcome" ;;
  if py_ne_str outcome "passed" then
    match r with
    | PDict d => collect_keys outcome d (dict_keys d) longrepr_list
    | _ => Raise TypeError
    end
  else Ok longrepr_list.

Fixpoint collect_tests (rs : list pyval) (longrepr_list : list string)
    : result (list string) :=
  match rs with
  | [] => Ok longrepr_list
  | r :: rs' =>
      l <- collect_record r longrepr_list ;;
      collect_tests rs' l
  end.

Definition collect_longrepr (data : pyval) : result (list string) :=
  tests <- py_getitem data "tests" ;;
  rs <- py_iter tests ;;
  collect_tests rs [].

End CollectLongrepr.

(* ------------------------------------------------------------------ *)
(** ** The host: files, [json.loads] and string formatting *)

(** A [pathlib.Path], as its [parts]: the components, after the anchor
    ["/"] or ["//"] when the path is absolute (POSIX flavour). *)
Definition Path := list string.

Definition is_anchor (s : string) : bool :=
  String.eqb s "/" || String.eqb s "//".

(** The pieces of [s] between its slashes. *)
Fixpoint split_slash (s : string) : list string :=
  match s with
  | EmptyString => [""]
  | String c s' =>
      if Ascii.eqb c "/"%char then "" :: split_slash s'
      else
        match split_slash s' with
        | x :: xs => String c x :: xs
        | [] => [String c EmptyString]
        end
  end.

(** The components of the path written [s]: empty pieces and ["."] are
    dropped. *)
Definition path_parts (s : string) : list string :=
  filter (fun x => negb (String.eqb x "" || String.eqb x "."))
    (split_slash s).

(** The anchor of the path written [s]: exactly two leading slashes are
    kept, one or more than two are one. *)
Definition path_anchor (s : string) : option string :=
  if String.prefix "///" s then Some "/"
  else if String.prefix "//" s then Some "//"
  else if String.prefix "/" s then Some "/"
  else None.

(** [p.name]: the final component, the empty string for a bare anchor. *)
Definition path_name (p : Path) : string :=
  let n := last p "" in
  if is_anchor n then "" else n.

(** [p / s]: the components of [s] after those of [p], and [s] alone when
    it is absolute. *)
Definition path_div (p : Path) (s : string) : Path :=
  match path_anchor s with
  | Some a => a :: path_parts s
  | None => p ++ path_parts s
  end.

(** [str(p)] *)
Definition path_str (p : Path) : string :=
  match p with
  | [] => "."
  | a :: rest => if is_anchor a then a +++ join "/" rest else join "/" p
  end.

Inductive node : Type :=
| Absent
| Directory
| File (text : string).

Record Host : Type := {
  (** what is at a path *)
  host_fs : Path -> node;
  (** [json.loads] *)
  host_json_loads : string -> result pyval;
  (** [pathlib.Path(__file__).parent] *)
  host_module_dir : Path;
  (** [str(v)] for a value that is not a string *)
  host_str : pyval -> string
}.

(** A collection argument: a list, a tuple, or another iterable (a set, a
    frozenset, a generator, ...), which is hashable or not and yields its
    items in some order. *)
Inductive pyseq (A : Type) : Type :=
| AsList (l : list A)
| AsTuple (l : list A)
| AsIterable (hashable : bool) (l : list A).

Arguments AsList {A} l.
Arguments AsTuple {A} l.
Arguments AsIterable {A} hashable l.

(** What a [for] loop over the collection visits. *)
Definition items {A} (s : pyseq A) : list A :=
  match s with
  | AsList l => l
  | AsTuple l => l
  | AsIterable _ l => l
  end.

(** [functools.lru_cache] hashes the arguments before it runs the function:
    a list is unhashable, a tuple of paths and a string are hashable.  The
    host's files do not change during a call, so a cache hit returns what
    the body would compute. *)
Definition lru_cache_key {A} (s : pyseq A) : result (list A) :=
  match s with
  | AsList _ => Raise TypeError
  | AsTuple l => Ok l
  | AsIterable true l => Ok l
  | AsIterable false _ => Raise TypeError
  end.

Section Assembly.
Variable host : Host.
Local Open Scope result_scope.

Definition exists_ (p : Path) : bool :=
  match host_fs host p with Absent => false | _ => true end.

Definition is_dir (p : Path) : bool :=
  match host_fs host p with Directory => true | _ => false end.

Definition is_file (p : Path) : bool :=
  match host_fs host p with File _ => true | _ => false end.

Definition read_text (p : Path) : result string :=
  match host_fs host p with
  | File t => Ok t
  | Directory => Raise IsADirectoryError
  | Absent => Raise FileNotFoundError
  end.

(** [assert c, msg] *)
Definition assert (c : bool) (msg : string) : result unit :=
  if c then Ok tt else Raise (AssertionError msg).

(** A replacement field [{v}] of an f-string. *)
Definition fmt (v : pyval) : string :=
  match v with
  | PStr s => s
  | _ => host_str host v
  end.

Fixpoint mapM {A B} (f : A -> result B) (l : list A) : result (list B) :=
  match l with
  | [] => Ok []
  | a :: l' =>
      b <- f a ;;
      bs <- mapM f l' ;;
      Ok (b :: bs)
  end.

Definition load_locale (explain_in : string) : result pyval :=
  let locale_folder := path_div (host_module_dir host) "locale" in
  _ <- assert (exists_ locale_folder)
         ("Locale folder not found: " +++ path_str locale_folder) ;;
  _ <- assert (is_dir locale_folder)
         ("Locale folder is not a directory: " +++ path_str locale_folder) ;;
  let locale_file := path_div locale_folder (explain_in +++ ".json") in
  _ <- assert (exists_ locale_file)
         ("Locale file not found: " +++ path_str locale_file) ;;
  _ <- assert (is_file locale_file)
         ("Locale file is not a file: " +++ path_str locale_file) ;;
  t <- read_text locale_file ;;
  host_json_loads host t.

(** [load_locale(explanation_in)[key]] *)
Definition locale_entry (explanation_in key : string) : result pyval :=
  loc <- load_locale explanation_in ;;
  py_getitem loc key.

Definition get_directive (explanation_in : string) : result string :=
  v <- locale_entry explanation_in "directive" ;;
  Ok (fmt v +++ LF).

Definition get_report_header (explanation_in : string) : result string :=
  v <- locale_entry explanation_in "report_header" ;;
  Ok ("## " +++ fmt v +++ LF).

Definition get_report_footer (explanation_in : string) : result string :=
  v <- locale_entry explanation_in "report_footer" ;;
  Ok ("## " +++ fmt v +++ LF).

Definition assignment_instruction (readme_file : Path) : result string :=
  read_text readme_file.

Definition get_instruction_block (readme_file : Path) (explanation_in : string)
    : result string :=
  s <- locale_entry explanation_in "instruction_start" ;;
  t <- assignment_instruction readme_file ;;
  e <- locale_entry explanation_in "instruction_end" ;;
  Ok ("## " +++ fmt s +++ LF +++
      t +++ LF +++
      "## " +++ fmt e +++ LF).

(** One element of the comprehension in [assignment_code]. *)
Definition file_section (f : Path) : result string :=
  t <- read_text f ;;
  Ok ("# begin : " +++ path_name f +++ " ======" +++ LF +++
      t +++ LF +++
      "# end : " +++ path_name f +++ " ======" +++ LF).

Definition assignment_code (student_files : pyseq Path) : result string :=
  fs <- lru_cache_key student_files ;;
  l <- mapM file_section fs ;;
  Ok (join (LF +++ LF) l).

(** The fourth literal of the returned string has no [f] prefix: its braces
    and what is between them are plain text. *)
Definition get_student_code_block (student_files : pyseq Path)
    (explanation_in : string) : result string :=
  c <- assignment_code student_files ;;
  e <- locale_entry explanation_in "homework_end" ;;
  Ok (LF +++
      LF +++
      "##### Start mutable code block" +++ LF +++
      "## {load_locale(explanation_in)['homework_start']}" +++ LF +++
      c +++ LF +++
      "## " +++ fmt e +++ LF +++
      "##### End mutable code block" +++ LF).

(** [json.loads(p.read_text())] *)
Definition load_report (p : Path) : result pyval :=
  t <- read_text p ;;
  host_json_loads host t.

(** The loop over the report files, [questions] being the list extended. *)
Fixpoint collect_reports (paths : list Path) (questions : list string)
    : result (list string) :=
  match paths with
  | [] => Ok questions
  | pytest_json_report_path :: paths' =>
      data <- load_report pytest_json_report_path ;;
      longrepr_list <- collect_longrepr data ;;
      collect_reports paths' (questions ++ longrepr_list)
  end.

Definition collect_longrepr_from_multiple_reports
    (pytest_json_report_paths : pyseq Path) (explanation_in : string)
    : result (list string) :=
  questions <- collect_reports (items pytest_json_report_paths) [] ;;
  match questions with
  | [] => Ok questions
  | _ :: _ =>
      h <- get_report_header explanation_in ;;
      f <- get_report_footer explanation_in ;;
      Ok ((h :: questions) ++ [f])
  end.

Definition get_initial_instruction (questions : list string) (language : string)
    : result string :=
  match questions with
  | _ :: _ =>
      d <- get_directive language ;;
      Ok (d +++ LF +++
          "Please generate comments mutually exclusive and collectively exhaustive for the following failed test cases.")
  | [] =>
      Ok ("In " +++ language +++
          ", please comment on the student code given the assignment instruction.")
  end.

Definition get_prompt (report_paths student_files : pyseq Path)
    (readme_file : Path) (explanation_in : string) : result string :=
  pytest_longrepr_list <-
    collect_longrepr_from_multiple_reports report_paths explanation_in ;;
  i <- get_initial_instruction pytest_longrepr_list explanation_in ;;
  b <- get_instruction_block readme_file explanation_in ;;
  c <- get_student_code_block student_files explanation_in ;;
  Ok (join (LF +++ LF) ([i; b; c] ++ pytest_longrepr_list ++ [])).

End Assembly.

(* ------------------------------------------------------------------ *)
(** ** The completion client: clock, transport and sleep *)

Record Request : Type := {
  req_url : string;
  req_headers : list (string * string);
  req_json : pyval
}.

Record Response : Type := {
  status_code : Z;
  text : string;
  (** what [response.json()] gives *)
  json : result pyval
}.

(** What a run does to the outside, in the order it does it. *)
Inductive Event : Type :=
| EvClock (t : Q)
| EvPost (rq : Request) (rs : Response)
| EvSleep (d : Q).

(** The outside of a run: what the clock shows and what the endpoint
    answers, each as a function of everything that has happened so far, and
    what [time.sleep] does with a length: [None] when it sleeps, else the
    exception it raises. *)
Record Env : Type := {
  clock_of : list Event -> Q;
  respond : list Event -> Request -> Response;
  sleep_error : Q -> option exn
}.

(** A computation that may raise: given the events so far, its outcome and
    the events it adds. *)
Definition IO (A : Type) : Type := list Event -> result A * list Event.

Definition io_ret {A} (a : A) : IO A := fun _ => (Ok a, []).

Definition io_bind {A B} (m : IO A) (f : A -> IO B) : IO B :=
  fun h =>
    match m h with
    | (Ok a, tr) => let (r, tr') := f a (h ++ tr) in (r, tr ++ tr')
    | (Raise e, tr) => (Raise e, tr)
    end.

Definition io_lift {A} (r : result A) : IO A := fun _ => (r, []).

Declare Scope io_scope.
Delimit Scope io_scope with io.
Notation "x <- m ;; k" := (io_bind m (fun x => k))
  (at level 61, m at next level, right associativity) : io_scope.
Notation "m ;;; k" := (io_bind m (fun _ => k))
  (at level 61, right associativity) : io_scope.

Definition RESOURCE_EXHAUSTED : Z := 429.

Definition url (api_key : string) : string :=
  "https://generativelanguage.googleapis.com/v1beta/models/gemini-1.5-flash-latest:generateContent?key="
  +++ api_key.

Definition header : list (string * string) :=
  [("Content-Type", "application/json")].

(** [range(n)] *)
Definition py_range (n : Z) : list Z := map Z.of_nat (seq 0 (Z.to_nat n)).

(** [x * (2 ** attempt)] for a float [x]: the integer is converted to a
    float first, which [2 ** 1024] and beyond do not fit. *)
Definition times_pow2 (x : Q) (attempt : Z) : result Q :=
  if (attempt <? 1024)%Z then Ok (x * inject_Z (2 ^ attempt))
  else Raise OverflowError.

(** [a > b] on seconds. *)
Definition Qgtb (a b : Q) : bool := negb (Qle_bool a b).

(** ['\n'.join(results)]: every item has to be a string. *)
Fixpoint strings_of (l : list pyval) : result (list string) :=
  match l with
  | [] => Ok []
  | PStr s :: l' => rbind (strings_of l') (fun ss => Ok (s :: ss))
  | _ :: _ => Raise TypeError
  end.

(** The body of the request: [{'contents': [{'parts': [{'text': question}]}]}] *)
Definition question_data (question : string) : pyval :=
  PDict [("contents", PList [PDict [("parts",
           PList [PDict [("text", PStr question)]])]])].

(** What [requests.post(url(api_key), headers=header, json=data)] sends. *)
Definition request (api_key : string) (header_ : list (string * string))
    (question : string) : Request :=
  {| req_url := url api_key;
     req_headers := header_;
     req_json := question_data question |}.

Section Client.
Variable env : Env.

(** [time.monotonic()] *)
Definition monotonic : IO Q :=
  fun h => let t := clock_of env h in (Ok t, [EvClock t]).

(** [requests.post(u, headers=hd, json=data)] *)
Definition post (u : string) (hd : list (string * string)) (data : pyval)
    : IO Response :=
  fun h =>
    let rq := {| req_url := u; req_headers := hd; req_json := data |} in
    let rs := respond env h rq in
    (Ok rs, [EvPost rq rs]).

(** [time.sleep(d)] *)
Definition sleep (d : Q) : IO unit :=
  fun _ =>
    match sleep_error env d with
    | None => (Ok tt, [EvSleep d])
    | Some e => (Raise e, [])
    end.

(** The success branch: the text parts of the first candidate, joined. *)
Definition extract_answer (response : Response) : result string :=
  (result <- json response ;;
   candidates <- py_getitem result "candidates" ;;
   first <- py_first candidates ;;
   content <- py_getitem first "content" ;;
   parts <- py_getitem content "parts" ;;
   ps <- py_iter parts ;;
   results <- mapM (fun part => py_getitem part "text") ps ;;
   ss <- strings_of results ;;
   Ok (join LF ss))%res.

Section Loop.
Variables (api_key : string) (header_ : list (string * string)).
Variables (retry_delay_sec : Q) (max_retry_attempt : Z) (timeout_sec : Q).
Variables (data : pyval) (start_time : Q).
Local Open Scope io_scope.

(** The [for attempt in range(max_retry_attempt + 1)] loop; [answer] is
    [None] whenever the loop is entered again, and every way out of the
    loop leads to [return answer]. *)
Fixpoint attempt_loop (attempts : list Z) : IO (option string) :=
  match attempts with
  | [] => io_ret None
  | attempt :: rest =>
      now <- monotonic ;;
      if Qgtb (now - start_time) timeout_sec then io_ret None
      else
        response <- post (url api_key) header_ data ;;
        if (status_code response =? 200)%Z then
          answer <- io_lift (extract_answer response) ;;
          io_ret (Some answer)
        else if (status_code response =? RESOURCE_EXHAUSTED)%Z then
          if (attempt <? max_retry_attempt)%Z then
            delay <- io_lift (times_pow2 retry_delay_sec attempt) ;;
            sleep delay ;;;
            attempt_loop rest
          else attempt_loop rest
        else attempt_loop rest
  end.

End Loop.

Local Open Scope io_scope.

Definition ask_gemini (question api_key : string)
    (header_ : list (string * string)) (retry_delay_sec : Q)
    (max_retry_attempt : Z) (timeout_sec : Q) : IO (option string) :=
  let data := question_data question in
  start_time <- monotonic ;;
  attempt_loop api_key header_ retry_delay_sec max_retry_attempt timeout_sec
    data start_time (py_range (max_retry_attempt + 1)).

(** [gemini_qna] calls [ask_gemini] with its defaults. *)
Definition gemini_qna (host : Host) (report_paths student_files : pyseq Path)
    (readme_file : Path) (api_key : string) (explanation_in : string)
    : IO (option string) :=
  consolidated_question <-
    io_lift (get_prompt host report_paths student_files readme_file
               explanation_in) ;;
  ask_gemini consolidated_question api_key header 5 3 60.

End Client.

(** The responses received in a history. *)
Definition posts (h : list Event) : list Response :=
  flat_map (fun e => match e with EvPost _ rs => [rs] | _ => [] end) h.

(** What a run does towards the endpoint, clock readings left out: a call
    with the status it got, or a sleep with its length. *)
Inductive Action : Type :=
| Call (status : Z)
| Wait (d : Q).

Definition actions (tr : list Event) : list Action :=
  flat_map (fun e =>
    match e with
    | EvPost _ rs => [Call (status_code rs)]
    | EvSleep d => [Wait d]
    | EvClock _ => []
    end) tr.

(** Some clock reading of [tr] is more than [timeout_sec] after
    [start_time]. *)
Definition deadline_hit (start_time timeout_sec : Q) (tr : list Event) : bool :=
  existsb (fun e =>
    match e with
    | EvClock t => Qgtb (t - start_time) timeout_sec
    | _ => false
    end) tr.

(** Every request of [tr] comes right after a clock reading within the
    deadline, and nothing comes after a reading beyond it. *)
Fixpoint deadline_respected (start_time timeout_sec : Q) (tr : list Event)
    : bool :=
  match tr with
  | [] => true
  | EvClock t :: tr' =>
      if Qgtb (t - start_time) timeout_sec then
        match tr' with [] => true | _ :: _ => false end
      else
        match tr' with
        | EvPost _ _ :: tr'' => deadline_respected start_time timeout_sec tr''
        | _ => false
        end
  | EvSleep _ :: tr' => deadline_respected start_time timeout_sec tr'
  | EvPost _ _ :: _ => false
  end.

(** The backoff before attempt [i + 1]. *)
Definition backoff (retry_delay_sec : Q) (i : nat) : Q :=
  retry_delay_sec * inject_Z (2 ^ Z.of_nat i).

(** A [time.sleep] after CPython's: the length in nanoseconds has to fit a
    signed 64-bit integer ([OverflowError] otherwise) and must not be
    negative ([ValueError]). *)
Definition py_sleep_error (d : Q) : option exn :=
  let ns := d * inject_Z (10 ^ 9) in
  if Qle_bool (inject_Z (- 2 ^ 63)) ns && negb (Qle_bool (inject_Z (2 ^ 63)) ns)
  then if Qle_bool 0 d then None else Some ValueError
  else Some OverflowError.

(** A transport that answers its calls from a script, then with [dflt], a
    clock that starts at 0, moves on by the length of every sleep and by
    [latency] for every request, and the [time.sleep] above. *)
Definition elapsed (latency : Q) (h : list Event) : Q :=
  fold_left (fun t e =>
    match e with
    | EvSleep d => t + d
    | EvPost _ _ => t + latency
    | EvClock _ => t
    end) h 0.

Definition scripted (script : list Response) (dflt : Response) (latency : Q)
    : Env :=
  {| clock_of := elapsed latency;
     respond := fun h _ => nth (length (posts h)) script dflt;
     sleep_error := py_sleep_error |}.

Definition status_only (code : Z) : Response :=
  {| status_code := code; text := ""; json := Raise JSONDecodeError |}.

(** A success response carrying the given text parts. *)
Definition success (parts : list string) : Response :=
  {| status_code := 200;
     text := "";
     json := Ok (PDict [("candidates",
               PList [PDict [("content",
                 PDict [("parts",
                   PList (map (fun s => PDict [("text", PStr s)]) parts))])]])]) |}.

(* ------------------------------------------------------------------ *)
(** ** The vocabulary of the statements *)

(** The failure detail an attribute value carries: the ['longrepr'] entry
    of a mapping. *)
Definition detail_of (v : pyval) : option pyval :=
  match v with
  | PDict m => dict_get "longrepr" m
  | _ => None
  end.

(** The detail, where there is one, is text. *)
Definition detail_ok (v : pyval) : bool :=
  match detail_of v with
  | Some (PStr _) | None => true
  | Some _ => false
  end.

Definition outcome_str (d : pydict) : string :=
  match dict_get "outcome" d with
  | Some (PStr o) => o
  | _ => ""
  end.

(** A record of the shape [{"outcome": str, "<phase>": {"longrepr": str}}]. *)
Definition wf_record (d : pydict) : bool :=
  match dict_get "outcome" d with
  | Some (PStr _) => forallb (fun kv => detail_ok (snd kv)) d
  | _ => false
  end.

(** The key [k] of the record [d] is a phase with failure detail. *)
Definition has_detail (d : pydict) (k : string) : bool :=
  match dict_get k d with
  | Some v => match detail_of v with Some _ => true | None => false end
  | None => false
  end.

Definition detail_text (d : pydict) (k : string) : string :=
  match dict_get k d with
  | Some v => match detail_of v with Some (PStr s) => s | _ => "" end
  | None => ""
  end.

(** ["<outcome>:<phase-name>:<detail-text>"] *)
Definition excerpt (outcome phase detail : string) : string :=
  outcome +++ ":" +++ phase +++ ":" +++ detail.

Definition passed (d : pydict) : bool := String.eqb (outcome_str d) "passed".

(** The pairs (record that has not passed, phase with failure detail) of a
    report, in the stored order of the records and, within a record, of its
    keys. *)
Definition failure_pairs (tests : list pydict) : list (pydict * string) :=
  flat_map (fun d =>
    if passed d then []
    else map (fun k => (d, k)) (filter (has_detail d) (dict_keys d))) tests.

Definition excerpt_of (p : pydict * string) : string :=
  excerpt (outcome_str (fst p)) (snd p) (detail_text (fst p) (snd p)).

(** Every record of the report has passed. *)
Definition passed_record (r : pyval) : bool :=
  match r with
  | PDict d =>
      match dict_get "outcome" d with
      | Some (PStr o) => String.eqb o "passed"
      | _ => false
      end
  | _ => false
  end.

Definition no_failing_records (data : pyval) : bool :=
  match data with
  | PDict d =>
      match dict_get "tests" d with
      | Some (PList rs) => forallb passed_record rs
      | _ => false
      end
  | _ => false
  end.

Fixpoint nodupb (l : list string) : bool :=
  match l with
  | [] => true
  | x :: l' => negb (existsb (String.eqb x) l') && nodupb l'
  end.

(* ------------------------------------------------------------------ *)
(** ** A sample host, sample reports and sample transports *)

Definition DQ : string := String "034"%char EmptyString.

Definition quoted (s : string) : string := DQ +++ s +++ DQ.

(** The JSON text of a value made of strings, lists and mappings (the
    sample values have no numbers and no characters to escape). *)
Fixpoint json_text (v : pyval) : string :=
  match v with
  | PNone => "null"
  | PBool true => "true"
  | PBool false => "false"
  | PInt _ | PFloat _ => "0"
  | PStr s => quoted s
  | PList l => "[" +++ join ", " (map json_text l) +++ "]"
  | PDict d =>
      "{" +++
      join ", " (map (fun kv : string * pyval => let (k, x) := kv in
                                quoted k +++ ": " +++ json_text x) d)
      +++ "}"
  end.

Definition flat_dict (kvs : list (string * string)) : pyval :=
  PDict (map (fun kv => (fst kv, PStr (snd kv))) kvs).

Definition english : list (string * string) :=
  [("directive", "Explain in English.");
   ("report_header", "Error Message Start");
   ("report_footer", "Error Message End");
   ("instruction_start", "Assignment Instruction Start");
   ("instruction_end", "Assignment Instruction End");
   ("homework_start", "Homework Submission Start");
   ("homework_end", "Homework Submission End")].

(** A locale resource with one of the seven keys only. *)
Definition partial : list (string * string) :=
  [("directive", "Explain in English.")].

Definition failed_record : pydict :=
  [("nodeid", PStr "test_add.py::test_add");
   ("outcome", PStr "failed");
   ("setup", PDict [("outcome", PStr "passed")]);
   ("call", PDict [("outcome", PStr "failed");
                   ("longrepr", PStr "AssertionError: 1 != 2")]);
   ("metadata", PDict [("longrepr", PStr "noted by a plugin")])].

Definition passed_rec : pydict :=
  [("nodeid", PStr "test_add.py::test_zero");
   ("outcome", PStr "passed");
   ("call", PDict [("outcome", PStr "passed"); ("longrepr", PStr "kept")])].

Definition failed_report : pyval :=
  PDict [("tests", PList [PDict passed_rec; PDict failed_record])].

Definition passed_report : pyval :=
  PDict [("tests", PList [PDict passed_rec])].

Definition a_py : Path := ["work"; "a.py"].
Definition readme_md : Path := ["work"; "README.md"].
Definition failed_json : Path := ["work"; "failed.json"].
Definition passed_json : Path := ["work"; "passed.json"].

Definition sample_fs (p : Path) : node :=
  let s := path_str p in
  if String.eqb s "app/locale" then Directory
  else if String.eqb s "app/locale/English.json" then
    File (json_text (flat_dict english))
  else if String.eqb s "app/locale/Partial.json" then
    File (json_text (flat_dict partial))
  else if String.eqb s "work/failed.json" then File (json_text failed_report)
  else if String.eqb s "work/passed.json" then File (json_text passed_report)
  else if String.eqb s "work/a.py" then File "x=1"
  else if String.eqb s "work/README.md" then File "Add two numbers"
  else Absent.

(** A [json.loads] that knows the texts of the sample files. *)
Definition sample_loads (t : string) : result pyval :=
  if String.eqb t (json_text (flat_dict english)) then Ok (flat_dict english)
  else if String.eqb t (json_text (flat_dict partial)) then
    Ok (flat_dict partial)
  else if String.eqb t (json_text failed_report) then Ok failed_report
  else if String.eqb t (json_text passed_report) then Ok passed_report
  else Raise JSONDecodeError.

Definition sample_host : Host :=
  {| host_fs := sample_fs;
     host_json_loads := sample_loads;
     host_module_dir := ["app"];
     host_str := fun _ => "" |}.

(** The seven keys a locale is expected to have. *)
Definition recognized_keys : list string :=
  ["directive"; "report_header"; "report_footer"; "instruction_start";
   "instruction_end"; "homework_start"; "homework_end"].

Definition has_key (loc : pyval) (k : string) : bool :=
  match loc with
  | PDict d => match dict_get k d with Some _ => true | None => false end
  | _ => false
  end.

(* ------------------------------------------------------------------ *)
(** ** More vocabulary: answers, waiting time, file sections *)

(** What the success branch makes of a response: its answer, or the
    exception of the extraction. *)
Definition answer_of (rs : Response) : result (option string) :=
  match extract_answer rs with
  | Ok answer => Ok (Some answer)
  | Raise e => Raise e
  end.

Definition qsum (l : list Q) : Q := fold_right Qplus 0 l.

(** The lengths of the sleeps of a trace. *)
Definition waits (tr : list Event) : list Q :=
  flat_map (fun e => match e with EvSleep d => [d] | _ => [] end) tr.

(** The requests of a trace. *)
Definition requests (tr : list Event) : list Request :=
  flat_map (fun e => match e with EvPost rq _ => [rq] | _ => [] end) tr.

(** The list of a loop that started from [acc] instead of the empty list. *)
Definition prepend (acc : list string) (r : result (list string))
    : result (list string) :=
  rbind r (fun l => Ok (acc ++ l)).

(** What [assignment_code] writes for a file of the given name and text. *)
Definition section_text (name text : string) : string :=
  "# begin : " +++ name +++ " ======" +++ LF +++
  text +++ LF +++
  "# end : " +++ name +++ " ======" +++ LF.

(* ================================================================== *)
(** * Properties *)

(** ** Strings, dictionaries and the error monad *)

Lemma append_assoc (a b c : string) : (a +++ b) +++ c = a +++ b +++ c.
Proof.
  induction a as [|ch a IH]; simpl; [reflexivity | now rewrite IH].
Qed.

Lemma dict_get_In (k : string) (d : pydict) (v : pyval) :
  dict_get k d = Some v -> In (k, v) d.
Proof.
  induction d as [|[k' v'] d IH]; simpl; [discriminate|].
  destruct (String.eqb k k') eqn:E.
  - apply String.eqb_eq in E. intros [= ->]. subst. now left.
  - intros H. right. now apply IH.
Qed.

Lemma In_keys_get (k : string) (d : pydict) :
  In k (dict_keys d) -> exists v, dict_get k d = Some v.
Proof.
  induction d as [|[k' v'] d IH]; simpl; [contradiction|].
  intros [<-|H].
  - rewrite String.eqb_refl. eauto.
  - destruct (String.eqb k k'); eauto.
Qed.

Lemma nodupb_NoDup (l : list string) : nodupb l = true -> NoDup l.
Proof.
  induction l as [|x l IH]; simpl; intros H; constructor.
  - apply andb_prop in H as [H _]. intros Hin.
    apply negb_true_iff in H.
    assert (existsb (String.eqb x) l = true) as E.
    { apply existsb_exists. exists x. split; [assumption | apply String.eqb_refl]. }
    congruence.
  - apply IH. now apply andb_prop in H as [_ H].
Qed.

Lemma dict_get_NoDup (k : string) (v : pyval) (d : pydict) :
  NoDup (dict_keys d) -> In (k, v) d -> dict_get k d = Some v.
Proof.
  induction d as [|[k' v'] d IH]; simpl; [contradiction|].
  intros Hnd [[= -> ->]|Hin].
  - now rewrite String.eqb_refl.
  - inversion Hnd as [|? ? Hnotin Hnd']; subst.
    destruct (String.eqb k k') eqn:E.
    + apply String.eqb_eq in E. subst. exfalso. apply Hnotin.
      change (In (fst (k', v)) (map fst d)). now apply in_map.
    + now apply IH.
Qed.

(** ** The extraction of failure excerpts *)

Lemma wf_record_detail (d : pydict) (k : string) (v : pyval) :
  wf_record d = true -> dict_get k d = Some v -> detail_ok v = true.
Proof.
  unfold wf_record. intros Hwf Hget.
  destruct (dict_get "outcome" d) as [[]|]; try discriminate.
  rewrite forallb_forall in Hwf.
  apply (Hwf (k, v)). now apply dict_get_In.
Qed.

Lemma collect_keys_spec (o : string) (d : pydict) (ks acc : list string) :
  wf_record d = true ->
  incl ks (dict_keys d) ->
  collect_keys (PStr o) d ks acc =
  Ok (acc ++ map (fun k => excerpt o k (detail_text d k))
               (filter (has_detail d) ks)).
Proof.
  intros Hwf. revert acc.
  induction ks as [|k ks IH]; intros acc Hincl; simpl.
  - now rewrite app_nil_r.
  - assert (In k (dict_keys d)) as Hk by (apply Hincl; now left).
    assert (incl ks (dict_keys d)) as Hks
      by (intros x Hx; apply Hincl; now right).
    destruct (In_keys_get _ _ Hk) as [v Hv].
    pose proof (wf_record_detail _ _ _ Hwf Hv) as Hok.
    assert (has_detail d k = match detail_of v with Some _ => true | None => false end)
      as Hhas by (unfold has_detail; now rewrite Hv).
    assert (detail_text d k = match detail_of v with Some (PStr s) => s | _ => "" end)
      as Htxt by (unfold detail_text; now rewrite Hv).
    rewrite Hv, Hhas. simpl. unfold detail_ok in Hok.
    destruct v; simpl in *; try (now apply IH).
    destruct (dict_get "longrepr" d0) as [lr|]; [|now apply IH].
    destruct lr; try discriminate. simpl.
    rewrite IH by assumption.
    rewrite <- app_assoc. simpl. rewrite Htxt.
    unfold excerpt. now rewrite !append_assoc.
Qed.

Lemma collect_record_spec (d : pydict) (acc : list string) :
  wf_record d = true ->
  collect_record (PDict d) acc =
  Ok (acc ++ map excerpt_of (failure_pairs [d])).
Proof.
  intros Hwf. unfold collect_record, failure_pairs, passed, outcome_str. simpl.
  pose proof Hwf as Hwf'. unfold wf_record in Hwf'.
  destruct (dict_get "outcome" d) as [[| | | |o| |]|] eqn:Ho; try discriminate.
  simpl. destruct (String.eqb o "passed") eqn:E; simpl.
  - now rewrite app_nil_r.
  - rewrite collect_keys_spec by (assumption || apply incl_refl).
    rewrite app_nil_r, map_map. unfold excerpt_of, outcome_str. simpl.
    now rewrite Ho.
Qed.

Lemma failure_pairs_cons (d : pydict) (tests : list pydict) :
  failure_pairs (d :: tests) = failure_pairs [d] ++ failure_pairs tests.
Proof.
  unfold failure_pairs. simpl. now rewrite app_nil_r.
Qed.

Lemma failure_pairs_app (t1 t2 : list pydict) :
  failure_pairs (t1 ++ t2) = failure_pairs t1 ++ failure_pairs t2.
Proof.
  unfold failure_pairs. apply flat_map_app.
Qed.

Lemma collect_tests_spec (tests : list pydict) (acc : list string) :
  forallb wf_record tests = true ->
  collect_tests (map PDict tests) acc =
  Ok (acc ++ map excerpt_of (failure_pairs tests)).
Proof.
  revert acc. induction tests as [|d tests IH]; intros acc Hwf.
  - simpl. now rewrite app_nil_r.
  - simpl in Hwf. apply andb_prop in Hwf as [Hd Hts].
    rewrite (failure_pairs_cons d tests), map_app, app_assoc.
    cbn [map collect_tests].
    rewrite collect_record_spec by assumption.
    cbn [rbind]. now apply IH.
Qed.

Lemma collect_longrepr_spec (data : pyval) (tests : list pydict) :
  py_getitem data "tests" = Ok (PList (map PDict tests)) ->
  forallb wf_record tests = true ->
  collect_longrepr data = Ok (map excerpt_of (failure_pairs tests)).
Proof.
  intros Hget Hwf. unfold collect_longrepr. rewrite Hget. simpl.
  now rewrite collect_tests_spec.
Qed.

(** What [failure_pairs] lists: the keys with detail of the records that
    have not passed. *)
Lemma failure_pairs_In (tests : list pydict) (d : pydict) (k : string) :
  In (d, k) (failure_pairs tests) <->
  In d tests /\ passed d = false /\ In k (dict_keys d) /\ has_detail d k = true.
Proof.
  unfold failure_pairs. rewrite in_flat_map. split.
  - intros [d' [Hin H]]. destruct (passed d') eqn:E; [contradiction|].
    apply in_map_iff in H as [k' [[= <- <-] Hk]].
    apply filter_In in Hk as [Hk1 Hk2]. auto.
  - intros [Hin [Hp [Hk Hd]]]. exists d. split; [assumption|].
    rewrite Hp. apply in_map. apply filter_In. auto.
Qed.

(** C7. For a parsed test-run report, [collect_longrepr] returns exactly one
    excerpt ["<outcome>:<phase-name>:<detail-text>"] for each pair of a record
    that has not passed and a phase of it with failure detail, in the stored
    order of records and phases; none of these pairs comes from a record whose
    outcome is "passed", and leaving such a record out of the report does not
    change the result; a report without records yields the empty list. *)
Theorem collect_longrepr_excerpts (data : pyval) (tests : list pydict) :
  py_getitem data "tests" = Ok (PList (map PDict tests)) ->
  forallb wf_record tests = true ->
  collect_longrepr data = Ok (map excerpt_of (failure_pairs tests)) /\
  (forall d k, In (d, k) (failure_pairs tests) ->
     outcome_str d <> "passed" /\ In d tests /\ has_detail d k = true) /\
  (forall pre d post, tests = pre ++ d :: post -> outcome_str d = "passed" ->
     collect_longrepr data = Ok (map excerpt_of (failure_pairs (pre ++ post)))) /\
  (tests = [] -> collect_longrepr data = Ok []).
Proof.
  intros Hget Hwf. split; [|split; [|split]].
  - now apply collect_longrepr_spec.
  - intros d k Hin. apply failure_pairs_In in Hin as [Hd [Hp [_ Hk]]].
    repeat split; try assumption.
    unfold passed in Hp. now apply String.eqb_neq in Hp.
  - intros pre d post -> Ho.
    rewrite (collect_longrepr_spec _ _ Hget Hwf).
    rewrite !failure_pairs_app, (failure_pairs_cons d post).
    unfold failure_pairs at 2, passed. simpl. now rewrite Ho.
  - intros ->. now rewrite (collect_longrepr_spec _ [] Hget).
Qed.

Lemma collect_longrepr_excerpts_witness :
  collect_longrepr failed_report =
  Ok ["failed:call:AssertionError: 1 != 2"; "failed:metadata:noted by a plugin"].
Proof.
  exact (proj1 (collect_longrepr_excerpts failed_report
                  [passed_rec; failed_record] eq_refl eq_refl)).
Defined.

Lemma has_detail_attribute (d m : pydict) (k : string) :
  wf_record d = true ->
  nodupb (dict_keys d) = true ->
  In (k, PDict m) d ->
  dict_get "longrepr" m <> None ->
  In k (filter (has_detail d) (dict_keys d)) /\
  dict_get "longrepr" m = Some (PStr (detail_text d k)).
Proof.
  intros Hwf Hnd Hin Hlr.
  assert (dict_get k d = Some (PDict m)) as Hget
    by (apply dict_get_NoDup; [now apply nodupb_NoDup | assumption]).
  pose proof (wf_record_detail _ _ _ Hwf Hget) as Hok.
  unfold detail_ok in Hok. simpl in Hok.
  destruct (dict_get "longrepr" m) as [lr|] eqn:E; [|congruence].
  destruct lr; try discriminate.
  split.
  - apply filter_In. split.
    + change k with (fst (k, PDict m)). apply in_map. exact Hin.
    + unfold has_detail. rewrite Hget. simpl. now rewrite E.
  - unfold detail_text. rewrite Hget. simpl. now rewrite E.
Qed.

(** C10. In a parsed report, a record [d] that has not passed contributes,
    between the excerpts of the records before it and of those after it, one
    excerpt for each of its keys whose value is a mapping with a ['longrepr']
    entry, in the order of the keys of [d]; every attribute of that kind is
    among them, whatever its name. *)
Theorem collect_longrepr_every_attribute
    (data : pyval) (pre post : list pydict) (d : pydict) :
  py_getitem data "tests" = Ok (PList (map PDict (pre ++ d :: post))) ->
  forallb wf_record (pre ++ d :: post) = true ->
  nodupb (dict_keys d) = true ->
  passed d = false ->
  collect_longrepr data =
    Ok (map excerpt_of (failure_pairs pre) ++
        map (fun k => excerpt (outcome_str d) k (detail_text d k))
            (filter (has_detail d) (dict_keys d)) ++
        map excerpt_of (failure_pairs post)) /\
  (forall k m, In (k, PDict m) d -> dict_get "longrepr" m <> None ->
     In k (filter (has_detail d) (dict_keys d)) /\
     dict_get "longrepr" m = Some (PStr (detail_text d k))).
Proof.
  intros Hget Hwf Hnd Hp. split.
  - rewrite (collect_longrepr_spec _ _ Hget Hwf).
    rewrite failure_pairs_app, failure_pairs_cons, !map_app.
    do 3 f_equal. unfold failure_pairs. simpl. rewrite Hp, app_nil_r.
    now rewrite map_map.
  - intros k m Hin Hlr. apply has_detail_attribute; try assumption.
    rewrite forallb_app in Hwf. apply andb_prop in Hwf as [_ Hwf].
    simpl in Hwf. now apply andb_prop in Hwf as [Hwf _].
Qed.

Lemma collect_longrepr_every_attribute_witness :
  collect_longrepr failed_report =
    Ok ([] ++ ["failed:call:AssertionError: 1 != 2";
               "failed:metadata:noted by a plugin"] ++ []) /\
  In "metadata" (filter (has_detail failed_record) (dict_keys failed_record)).
Proof.
  pose proof (collect_longrepr_every_attribute failed_report
                [passed_rec] [] failed_record eq_refl eq_refl eq_refl eq_refl)
    as [H1 H2].
  split.
  - exact H1.
  - refine (proj1 (H2 "metadata" [("longrepr", PStr "noted by a plugin")] _ _)).
    + simpl. auto 6.
    + discriminate.
Defined.

(** ** Several reports, header and footer *)

Lemma no_failing_records_collect (data : pyval) :
  no_failing_records data = true -> collect_longrepr data = Ok [].
Proof.
  unfold no_failing_records, collect_longrepr.
  destruct data; try discriminate. simpl.
  destruct (dict_get "tests" d) as [[| | | | |rs|]|]; try discriminate.
  simpl. generalize (@nil string).
  induction rs as [|r rs IH]; intros acc H; simpl; [reflexivity|].
  simpl in H. apply andb_prop in H as [Hr Hrs].
  unfold collect_record. destruct r; try discriminate. simpl in *.
  destruct (dict_get "outcome" d0) as [[| | | |o| |]|]; try discriminate.
  simpl. rewrite Hr. simpl. now apply IH.
Qed.

Section Reports.
Variable host : Host.

Lemma collect_reports_spec (paths : list Path) (ls : list (list string))
    (questions : list string) :
  Forall2 (fun p l => exists data,
             load_report host p = Ok data /\ collect_longrepr data = Ok l)
          paths ls ->
  collect_reports host paths questions = Ok (questions ++ concat ls).
Proof.
  intros H. revert questions.
  induction H as [|p l paths ls [data [Hload Hcol]] _ IH]; intros questions; simpl.
  - now rewrite app_nil_r.
  - rewrite Hload. simpl. rewrite Hcol. simpl.
    rewrite IH. now rewrite app_assoc.
Qed.

Lemma no_failing_Forall2 (paths : list Path) :
  Forall (fun p => exists data,
            load_report host p = Ok data /\ no_failing_records data = true)
         paths ->
  Forall2 (fun p l => exists data,
             load_report host p = Ok data /\ collect_longrepr data = Ok l)
          paths (map (fun _ => []) paths).
Proof.
  induction 1 as [|p paths [data [Hl Hn]] _ IH]; simpl; constructor.
  - exists data. split; [assumption | now apply no_failing_records_collect].
  - assumption.
Qed.

Lemma concat_nils {A B} (l : list A) :
  concat (map (fun _ => @nil B) l) = [].
Proof. induction l; simpl; auto. Qed.

(** C8. [collect_longrepr_from_multiple_reports] returns the empty list for
    an empty collection of reports and for reports none of whose records has
    failed; when the excerpts of the reports, concatenated in the order of
    the reports, are not empty, it returns them between one header line and
    one footer line built from the locale's [report_header] and
    [report_footer]. *)
Theorem multiple_reports_header_footer (explanation_in : string) :
  (forall paths, items paths = [] ->
     collect_longrepr_from_multiple_reports host paths explanation_in = Ok []) /\
  (forall paths,
     Forall (fun p => exists data,
               load_report host p = Ok data /\ no_failing_records data = true)
            (items paths) ->
     collect_longrepr_from_multiple_reports host paths explanation_in = Ok []) /\
  (forall paths ls hd ft,
     Forall2 (fun p l => exists data,
                load_report host p = Ok data /\ collect_longrepr data = Ok l)
             (items paths) ls ->
     concat ls <> [] ->
     locale_entry host explanation_in "report_header" = Ok (PStr hd) ->
     locale_entry host explanation_in "report_footer" = Ok (PStr ft) ->
     collect_longrepr_from_multiple_reports host paths explanation_in =
       Ok (("## " +++ hd +++ LF) :: concat ls ++ ["## " +++ ft +++ LF])).
Proof.
  unfold collect_longrepr_from_multiple_reports.
  split; [|split].
  - intros paths ->. reflexivity.
  - intros paths H. apply no_failing_Forall2 in H.
    rewrite (collect_reports_spec _ _ [] H). simpl.
    now rewrite concat_nils.
  - intros paths ls hd ft H Hne Hh Hf.
    rewrite (collect_reports_spec _ _ [] H). simpl.
    destruct (concat ls) as [|x xs] eqn:E; [congruence|].
    unfold get_report_header, get_report_footer. rewrite Hh, Hf. reflexivity.
Qed.

End Reports.

Lemma multiple_reports_header_footer_witness :
  collect_longrepr_from_multiple_reports sample_host (AsTuple []) "English"
    = Ok [] /\
  collect_longrepr_from_multiple_reports sample_host (AsTuple [passed_json])
    "English" = Ok [] /\
  collect_longrepr_from_multiple_reports sample_host
    (AsTuple [passed_json; failed_json]) "English" =
    Ok ["## Error Message Start" +++ LF;
        "failed:call:AssertionError: 1 != 2";
        "failed:metadata:noted by a plugin";
        "## Error Message End" +++ LF].
Proof.
  destruct (multiple_reports_header_footer sample_host "English")
    as [H1 [H2 H3]].
  split; [|split].
  - apply H1. reflexivity.
  - apply H2. repeat constructor. exists passed_report. split; reflexivity.
  - apply (H3 (AsTuple [passed_json; failed_json])
              [[]; ["failed:call:AssertionError: 1 != 2";
                    "failed:metadata:noted by a plugin"]]
              "Error Message Start" "Error Message End").
    + repeat constructor.
      * exists passed_report. split; reflexivity.
      * exists failed_report. split; reflexivity.
    + discriminate.
    + reflexivity.
    + reflexivity.
Defined.

(** ** The student-code block *)

Lemma student_code_block_shape (host : Host) (student_files : pyseq Path)
    (explanation_in c : string) (e : pyval) :
  assignment_code host student_files = Ok c ->
  locale_entry host explanation_in "homework_end" = Ok e ->
  get_student_code_block host student_files explanation_in =
  Ok (LF +++ LF +++
      "##### Start mutable code block" +++ LF +++
      "## {load_locale(explanation_in)['homework_start']}" +++ LF +++
      c +++ LF +++
      "## " +++ fmt host e +++ LF +++
      "##### End mutable code block" +++ LF).
Proof.
  intros Hc He. unfold get_student_code_block. now rewrite Hc, He.
Qed.

(** C2. With the sample locale, whose [homework_start] is
    "Homework Submission Start", and the one student file [a.py] holding
    [x=1], the second line of the block is the text of the replacement field
    itself, braces included, and the locale's [homework_start] is nowhere in
    the block; the end marker line does carry the locale's [homework_end]. *)
Theorem student_code_block_start_marker :
  locale_entry sample_host "English" "homework_start" =
    Ok (PStr "Homework Submission Start") /\
  get_student_code_block sample_host (AsTuple [a_py]) "English" =
    Ok (LF +++ LF +++
        "##### Start mutable code block" +++ LF +++
        "## {load_locale(explanation_in)['homework_start']}" +++ LF +++
        "# begin : a.py ======" +++ LF +++
        "x=1" +++ LF +++
        "# end : a.py ======" +++ LF +++
        LF +++
        "## Homework Submission End" +++ LF +++
        "##### End mutable code block" +++ LF).
Proof.
  split; reflexivity.
Qed.

(** ** Loading a locale *)

(** A resource with one of the seven keys is loaded without complaint. *)
Lemma load_locale_accepts_missing_keys :
  exists loc,
    load_locale sample_host "Partial" = Ok loc /\
    existsb (fun k => negb (has_key loc k)) recognized_keys = true.
Proof.
  exists (flat_dict partial). split; reflexivity.
Qed.

(** C6, as the code has it. [load_locale] fails with an [AssertionError]
    when nothing exists at the locale file of the label (its message is
    "Locale file not found: ..." when the locale folder is there); when the
    folder and the file exist it returns whatever [json.loads] makes of the
    file's text, with no check of the keys; a key that is missing raises
    [KeyError] where it is looked up. *)
Theorem load_locale_behaviour (host : Host) (explain_in : string) :
  let locale_folder := path_div (host_module_dir host) "locale" in
  let locale_file := path_div locale_folder (explain_in +++ ".json") in
  (host_fs host locale_file = Absent ->
     exists msg, load_locale host explain_in = Raise (AssertionError msg)) /\
  (host_fs host locale_folder = Directory ->
   host_fs host locale_file = Absent ->
     load_locale host explain_in =
     Raise (AssertionError ("Locale file not found: " +++ path_str locale_file))) /\
  (forall t,
     host_fs host locale_folder = Directory ->
     host_fs host locale_file = File t ->
     load_locale host explain_in = host_json_loads host t) /\
  (forall d key,
     load_locale host explain_in = Ok (PDict d) ->
     dict_get key d = None ->
     locale_entry host explain_in key = Raise (KeyError (PStr key))).
Proof.
  cbv zeta. split; [|split; [|split]].
  - intros Hf. unfold load_locale, exists_, is_dir, is_file, read_text.
    destruct (host_fs host (path_div (host_module_dir host) "locale"));
      simpl; eauto.
    rewrite Hf. simpl. eauto.
  - intros Hd Hf. unfold load_locale, exists_, is_dir, is_file, read_text.
    rewrite Hd. simpl. rewrite Hf. reflexivity.
  - intros t Hd Hf. unfold load_locale, exists_, is_dir, is_file, read_text.
    rewrite Hd. simpl. rewrite Hf. reflexivity.
  - intros d key Hl Hk. unfold locale_entry.
    rewrite Hl. simpl. now rewrite Hk.
Qed.

Lemma load_locale_behaviour_witness :
  load_locale sample_host "Klingon" =
    Raise (AssertionError "Locale file not found: app/locale/Klingon.json") /\
  load_locale sample_host "/nonexistent/x" =
    Raise (AssertionError "Locale file not found: /nonexistent/x.json") /\
  load_locale sample_host "Partial" = Ok (flat_dict partial) /\
  locale_entry sample_host "Partial" "report_header" =
    Raise (KeyError (PStr "report_header")).
Proof.
  split; [|split; [|split]].
  - exact (proj1 (proj2 (load_locale_behaviour sample_host "Klingon"))
             eq_refl eq_refl).
  - exact (proj1 (proj2 (load_locale_behaviour sample_host "/nonexistent/x"))
             eq_refl eq_refl).
  - exact (proj1 (proj2 (proj2 (load_locale_behaviour sample_host "Partial")))
             (json_text (flat_dict partial)) eq_refl eq_refl).
  - exact (proj2 (proj2 (proj2 (load_locale_behaviour sample_host "Partial")))
             [("directive", PStr "Explain in English.")] "report_header"
             eq_refl eq_refl).
Defined.

(** ** Student files given as a list *)

Lemma student_code_block_list (host : Host) (files : list Path)
    (explanation_in : string) :
  get_student_code_block host (AsList files) explanation_in = Raise TypeError.
Proof. reflexivity. Qed.

Lemma get_prompt_list (host : Host) (report_paths : pyseq Path)
    (files : list Path) (readme_file : Path) (explanation_in : string) :
  exists e,
    get_prompt host report_paths (AsList files) readme_file explanation_in
    = Raise e.
Proof.
  unfold get_prompt.
  destruct (collect_longrepr_from_multiple_reports host report_paths
              explanation_in) as [l|e]; simpl; eauto.
  destruct (get_initial_instruction host l explanation_in) as [i|e];
    simpl; eauto.
  destruct (get_instruction_block host readme_file explanation_in) as [b|e];
    simpl; eauto.
Qed.

Lemma get_prompt_unhashable (host : Host) (report_paths : pyseq Path)
    (student_files : pyseq Path) (readme_file : Path) (explanation_in : string) :
  lru_cache_key student_files = Raise TypeError ->
  exists e,
    get_prompt host report_paths student_files readme_file explanation_in
    = Raise e.
Proof.
  intros Hk. unfold get_prompt.
  destruct (collect_longrepr_from_multiple_reports host report_paths
              explanation_in) as [l|e]; simpl; eauto.
  destruct (get_initial_instruction host l explanation_in) as [i|e];
    simpl; eauto.
  destruct (get_instruction_block host readme_file explanation_in) as [b|e];
    simpl; eauto.
  unfold get_student_code_block, assignment_code. rewrite Hk. simpl. eauto.
Qed.

Lemma lru_cache_key_cases {A} (s : pyseq A) :
  lru_cache_key s = Ok (items s) \/ lru_cache_key s = Raise TypeError.
Proof.
  destruct s as [l|l|[|] l]; simpl; auto.
Qed.

Lemma get_prompt_Ok_hashable (host : Host)
    (report_paths student_files : pyseq Path)
    (readme_file : Path) (explanation_in prompt : string) :
  get_prompt host report_paths student_files readme_file explanation_in
    = Ok prompt ->
  lru_cache_key student_files = Ok (items student_files).
Proof.
  intros H. destruct (lru_cache_key_cases student_files) as [Hk|Hk]; [exact Hk|].
  destruct (get_prompt_unhashable host report_paths student_files readme_file
              explanation_in Hk) as [e He].
  congruence.
Qed.

Lemma collect_reports_items (host : Host) (rp rp' : pyseq Path)
    (explanation_in : string) :
  items rp' = items rp ->
  collect_longrepr_from_multiple_reports host rp' explanation_in =
  collect_longrepr_from_multiple_reports host rp explanation_in.
Proof.
  intros H. unfold collect_longrepr_from_multiple_reports. now rewrite H.
Qed.

(** A list of report paths with a tuple of student files completes, and so
    does a hashable collection of student files that is not a tuple. *)
Lemma list_of_reports_completes :
  let env := scripted [] (success ["Check the sum."]) 0 in
  fst (gemini_qna env sample_host (AsList [failed_json]) (AsTuple [a_py])
         readme_md "key" "English" []) = Ok (Some "Check the sum.") /\
  fst (gemini_qna env sample_host (AsList [failed_json])
         (AsIterable true [a_py]) readme_md "key" "English" [])
    = Ok (Some "Check the sum.").
Proof.
  vm_compute. split; reflexivity.
Qed.

(** C9, as the code has it. When [student_files] is a list, building the
    student-code block raises [TypeError]; [get_prompt] then ends in an
    exception ([TypeError] itself when the steps before the block succeed)
    and [gemini_qna] ends in an exception without a single event, so no
    request is sent.  A call of [gemini_qna] that returns was given student
    files that [lru_cache] could hash (a tuple, or another hashable
    collection); the report paths are only iterated, so that their kind of
    collection, list or not, does not change the result. *)
Theorem student_files_list_raises (env : Env) (host : Host)
    (report_paths : pyseq Path) (files : list Path) (readme_file : Path)
    (api_key explanation_in : string) (h : list Event) :
  get_student_code_block host (AsList files) explanation_in = Raise TypeError /\
  (exists e,
     get_prompt host report_paths (AsList files) readme_file explanation_in
     = Raise e) /\
  (forall l i b,
     collect_longrepr_from_multiple_reports host report_paths explanation_in
       = Ok l ->
     get_initial_instruction host l explanation_in = Ok i ->
     get_instruction_block host readme_file explanation_in = Ok b ->
     get_prompt host report_paths (AsList files) readme_file explanation_in
     = Raise TypeError) /\
  (exists e,
     gemini_qna env host report_paths (AsList files) readme_file api_key
       explanation_in h = (Raise e, [])) /\
  (forall student_files answer tr,
     gemini_qna env host report_paths student_files readme_file api_key
       explanation_in h = (Ok answer, tr) ->
     lru_cache_key student_files = Ok (items student_files)) /\
  (forall report_paths' student_files,
     items report_paths' = items report_paths ->
     gemini_qna env host report_paths' student_files readme_file api_key
       explanation_in h =
     gemini_qna env host report_paths student_files readme_file api_key
       explanation_in h).
Proof.
  split; [reflexivity|]. split; [apply get_prompt_list|].
  split; [|split; [|split]].
  - intros l i b Hl Hi Hb. unfold get_prompt. rewrite Hl. simpl.
    rewrite Hi. simpl. rewrite Hb. reflexivity.
  - destruct (get_prompt_list host report_paths files readme_file
                explanation_in) as [e He].
    exists e. unfold gemini_qna, io_bind, io_lift. now rewrite He.
  - intros student_files answer tr H.
    unfold gemini_qna, io_bind, io_lift in H.
    destruct (get_prompt host report_paths student_files readme_file
                explanation_in) as [prompt|e] eqn:E; [|discriminate].
    eapply get_prompt_Ok_hashable. exact E.
  - intros rp student_files Hitems.
    unfold gemini_qna, get_prompt.
    now rewrite (collect_reports_items host report_paths rp explanation_in Hitems).
Qed.

Lemma student_files_list_raises_witness :
  get_prompt sample_host (AsTuple [failed_json]) (AsList [a_py]) readme_md
    "English" = Raise TypeError /\
  lru_cache_key (AsTuple [a_py]) = Ok [a_py].
Proof.
  pose proof (student_files_list_raises
                (scripted [] (success ["Check the sum."]) 0) sample_host
                (AsTuple [failed_json]) [a_py] readme_md "key" "English" [])
    as [_ [_ [H3 [_ [H5 _]]]]].
  split.
  - eapply H3; reflexivity.
  - apply (H5 (AsTuple [a_py]) (Some "Check the sum.")
              (snd (gemini_qna (scripted [] (success ["Check the sum."]) 0)
                      sample_host (AsTuple [failed_json]) (AsTuple [a_py])
                      readme_md "key" "English" []))).
    vm_compute. reflexivity.
Defined.

(** ** The attempt loop *)

Lemma Qgtb_lt (a b : Q) : Qgtb a b = true <-> (b < a)%Q.
Proof.
  unfold Qgtb. rewrite negb_true_iff. split.
  - intros H. apply Qnot_le_lt. intros Hle.
    apply Qle_bool_iff in Hle. congruence.
  - intros H. destruct (Qle_bool a b) eqn:E; [|reflexivity].
    apply Qle_bool_iff in E. exfalso. exact (Qlt_not_le _ _ H E).
Qed.

Lemma actions_app (t1 t2 : list Event) :
  actions (t1 ++ t2) = actions t1 ++ actions t2.
Proof. unfold actions. apply flat_map_app. Qed.

Lemma posts_app (t1 t2 : list Event) : posts (t1 ++ t2) = posts t1 ++ posts t2.
Proof. unfold posts. apply flat_map_app. Qed.

Lemma deadline_hit_app (s t : Q) (t1 t2 : list Event) :
  deadline_hit s t (t1 ++ t2) = deadline_hit s t t1 || deadline_hit s t t2.
Proof. unfold deadline_hit. apply existsb_app. Qed.

Section LoopFacts.
Variables (env : Env) (api_key : string) (header_ : list (string * string)).
Variables (retry_delay_sec : Q) (max_retry_attempt : Z) (timeout_sec : Q).
Variables (data : pyval) (start_time : Q).

Let loop := attempt_loop env api_key header_ retry_delay_sec max_retry_attempt
              timeout_sec data start_time.

Let rq : Request :=
  {| req_url := url api_key; req_headers := header_; req_json := data |}.

(** The check and the request of one attempt, from the history [h]. *)
Let now_ (h : list Event) : Q := clock_of env h.
Let late (h : list Event) : bool := Qgtb (now_ h - start_time) timeout_sec.
Let response (h : list Event) : Response :=
  respond env (h ++ [EvClock (now_ h)]) rq.
Let attempt_events (h : list Event) : list Event :=
  [EvClock (now_ h); EvPost rq (response h)].

Lemma loop_timeout (attempt : Z) (rest : list Z) (h : list Event) :
  late h = true ->
  loop (attempt :: rest) h = (Ok None, [EvClock (now_ h)]).
Proof.
  intros H. unfold loop. simpl. unfold io_bind at 1, monotonic at 1.
  fold (now_ h). change (Qgtb (now_ h - start_time) timeout_sec) with (late h).
  now rewrite H.
Qed.

Lemma loop_success (attempt : Z) (rest : list Z) (h : list Event) :
  late h = false ->
  status_code (response h) = 200%Z ->
  loop (attempt :: rest) h =
  (match extract_answer (response h) with
   | Ok answer => Ok (Some answer)
   | Raise e => Raise e
   end, attempt_events h).
Proof.
  intros Hl Hs. unfold loop. simpl. unfold io_bind at 1, monotonic at 1.
  fold (now_ h). change (Qgtb (now_ h - start_time) timeout_sec) with (late h).
  rewrite Hl. unfold io_bind at 1, post at 1. fold rq. fold (response h).
  rewrite Hs. simpl. unfold io_bind, io_lift, io_ret, attempt_events.
  destruct (extract_answer (response h)); reflexivity.
Qed.

Let delay_of (attempt : Z) : Q := retry_delay_sec * inject_Z (2 ^ attempt).

(** What goes wrong in the backoff of an attempt, if anything: the product
    overflows, or [time.sleep] raises. *)
Let nap (attempt : Z) : option exn :=
  if (attempt <? 1024)%Z then sleep_error env (delay_of attempt)
  else Some OverflowError.

Lemma nap_accepted (i : nat) :
  (i < 1024)%nat ->
  sleep_error env (backoff retry_delay_sec i) = None ->
  nap (Z.of_nat i) = None.
Proof.
  intros Hi Hs. unfold nap.
  assert ((Z.of_nat i <? 1024)%Z = true) as -> by (apply Z.ltb_lt; lia).
  exact Hs.
Qed.

Lemma loop_continue (r : result (option string)) (tr : list Event)
    (attempt : Z) (rest : list Z) (h : list Event) (more : list Event) :
  late h = false ->
  status_code (response h) <> 200%Z ->
  let backs_off := (status_code (response h) =? RESOURCE_EXHAUSTED)%Z
                   && (attempt <? max_retry_attempt)%Z in
  (backs_off = true -> nap attempt = None) ->
  more = (if backs_off then [EvSleep (delay_of attempt)] else []) ->
  loop rest (h ++ attempt_events h ++ more) = (r, tr) ->
  loop (attempt :: rest) h = (r, attempt_events h ++ more ++ tr).
Proof.
  intros Hl Hs backs_off Hd -> Hrest. unfold loop. simpl.
  unfold io_bind at 1, monotonic at 1.
  fold (now_ h). change (Qgtb (now_ h - start_time) timeout_sec) with (late h).
  rewrite Hl. unfold io_bind at 1, post at 1. fold rq. fold (response h).
  apply Z.eqb_neq in Hs. rewrite Hs.
  fold loop. unfold attempt_events in *. unfold backs_off in *.
  destruct (status_code (response h) =? RESOURCE_EXHAUSTED)%Z; simpl in *.
  - destruct (attempt <? max_retry_attempt)%Z; simpl in *.
    + specialize (Hd eq_refl). unfold nap in Hd.
      unfold io_bind, io_lift, times_pow2, sleep.
      destruct (attempt <? 1024)%Z; [|discriminate].
      fold (delay_of attempt). rewrite Hd.
      rewrite !app_nil_r, <- !app_assoc. simpl.
      now rewrite Hrest.
    + rewrite <- app_assoc. simpl. now rewrite Hrest.
  - rewrite <- app_assoc. simpl. now rewrite Hrest.
Qed.

(** A backoff that goes wrong: the exception ends the run. *)
Lemma loop_bad_sleep (attempt : Z) (rest : list Z) (h : list Event) (e : exn) :
  late h = false ->
  status_code (response h) = RESOURCE_EXHAUSTED ->
  (attempt <? max_retry_attempt)%Z = true ->
  nap attempt = Some e ->
  loop (attempt :: rest) h = (Raise e, attempt_events h).
Proof.
  intros Hl Hs Ha Hd. unfold loop. simpl.
  unfold io_bind at 1, monotonic at 1.
  fold (now_ h). change (Qgtb (now_ h - start_time) timeout_sec) with (late h).
  rewrite Hl. unfold io_bind at 1, post at 1. fold rq. fold (response h).
  rewrite Hs, Ha. simpl. unfold nap in Hd.
  unfold io_bind, io_lift, times_pow2, sleep.
  destruct (attempt <? 1024)%Z.
  - fold (delay_of attempt). rewrite Hd. reflexivity.
  - injection Hd as <-. reflexivity.
Qed.

Lemma posts_check (h : list Event) (t : Q) : posts (h ++ [EvClock t]) = posts h.
Proof. rewrite posts_app. simpl. apply app_nil_r. Qed.

Lemma deadline_hit_check (h : list Event) :
  deadline_hit start_time timeout_sec [EvClock (now_ h)] = late h.
Proof. unfold deadline_hit, late. simpl. apply orb_false_r. Qed.

Lemma deadline_hit_attempt (h : list Event) :
  deadline_hit start_time timeout_sec (attempt_events h) = late h.
Proof. unfold deadline_hit, late, attempt_events. simpl. apply orb_false_r. Qed.

(** *** One attempt, case by case *)

Lemma loop_step (attempt : Z) (rest : list Z) (h : list Event) :
  (late h = true /\
   loop (attempt :: rest) h = (Ok None, [EvClock (now_ h)])) \/
  (late h = false /\ status_code (response h) = 200%Z /\
   loop (attempt :: rest) h = (answer_of (response h), attempt_events h)) \/
  (late h = false /\ status_code (response h) = 429%Z /\
   (attempt < max_retry_attempt)%Z /\
   exists e, nap attempt = Some e /\
             loop (attempt :: rest) h = (Raise e, attempt_events h)) \/
  (late h = false /\ status_code (response h) <> 200%Z /\
   exists more,
     (more = [] \/
      (more = [EvSleep (delay_of attempt)] /\
       status_code (response h) = 429%Z /\
       (attempt < max_retry_attempt)%Z /\ nap attempt = None)) /\
     loop (attempt :: rest) h =
       (fst (loop rest (h ++ attempt_events h ++ more)),
        attempt_events h ++ more ++
        snd (loop rest (h ++ attempt_events h ++ more)))).
Proof.
  destruct (late h) eqn:Hl.
  { left. split; [reflexivity | now apply loop_timeout]. }
  right.
  destruct (Z.eq_dec (status_code (response h)) 200) as [Hs|Hs].
  { left. repeat split; try assumption.
    rewrite loop_success by assumption. reflexivity. }
  right.
  set (backs_off := (status_code (response h) =? RESOURCE_EXHAUSTED)%Z
                    && (attempt <? max_retry_attempt)%Z).
  destruct backs_off eqn:Hb.
  - apply andb_prop in Hb as [Hb1 Hb2].
    apply Z.eqb_eq in Hb1. pose proof Hb2 as Hb2'. apply Z.ltb_lt in Hb2'.
    destruct (nap attempt) as [e|] eqn:Hd.
    + left. repeat split; try assumption.
      exists e. split; [reflexivity | now apply loop_bad_sleep].
    + right. repeat split; try assumption.
      exists [EvSleep (delay_of attempt)]. split.
      * right. repeat split; assumption.
      * destruct (loop rest (h ++ attempt_events h ++ [EvSleep (delay_of attempt)]))
          as [r1 tr1] eqn:E1.
        apply loop_continue; try assumption.
        -- intros _. exact Hd.
        -- rewrite Hb1, Hb2. reflexivity.
  - right. repeat split; try assumption.
    exists []. split; [now left|].
    destruct (loop rest (h ++ attempt_events h ++ [])) as [r1 tr1] eqn:E1.
    apply loop_continue; try assumption.
    + fold backs_off. rewrite Hb. discriminate.
    + fold backs_off. now rewrite Hb.
Qed.

(** [n] attempts answered 429, each before the last allowed one and each
    with a backoff that goes well: every one is followed by its sleep and
    the loop goes on. *)
Lemma backoff_steps (n : nat) :
  forall (k : nat) (h : list Event) (rest : list Z)
         (r : result (option string)) (tr : list Event),
  (forall i, (k <= i < k + n)%nat -> nap (Z.of_nat i) = None) ->
  length (posts h) = k ->
  (Z.of_nat (k + n) <= max_retry_attempt)%Z ->
  (forall h' rq', (length (posts h') < k + n)%nat ->
     status_code (respond env h' rq') = 429%Z) ->
  loop (map Z.of_nat (seq k n) ++ rest) h = (r, tr) ->
  deadline_hit start_time timeout_sec tr = false ->
  exists mid tr',
    tr = mid ++ tr' /\
    loop rest (h ++ mid) = (r, tr') /\
    actions mid =
      flat_map (fun i => [Call 429; Wait (backoff retry_delay_sec i)]) (seq k n) /\
    length (posts mid) = n.
Proof.
  induction n as [|n IH]; intros k h rest r tr Hnap Hk Hmax H429 Hloop Hdead.
  - exists [], tr. simpl in *. rewrite app_nil_r. auto.
  - cbn [seq map app] in Hloop.
    destruct (late h) eqn:Hl.
    + rewrite loop_timeout in Hloop by assumption.
      injection Hloop as <- <-. rewrite deadline_hit_check in Hdead. congruence.
    + assert (status_code (response h) = 429%Z) as Hs.
      { apply H429. rewrite posts_check. lia. }
      set (zzz := [EvSleep (delay_of (Z.of_nat k))]).
      destruct (loop (map Z.of_nat (seq (S k) n) ++ rest)
                  (h ++ attempt_events h ++ zzz)) as [r1 tr1] eqn:E1.
      assert (loop (Z.of_nat k :: map Z.of_nat (seq (S k) n) ++ rest) h
              = (r1, attempt_events h ++ zzz ++ tr1)) as Hstep.
      { apply loop_continue; try assumption.
        - rewrite Hs. discriminate.
        - intros _. apply Hnap. lia.
        - rewrite Hs. simpl.
          assert ((Z.of_nat k <? max_retry_attempt)%Z = true) as ->
            by (apply Z.ltb_lt; lia).
          reflexivity. }
      rewrite Hstep in Hloop.
      assert (r = r1 /\ tr = attempt_events h ++ zzz ++ tr1) as [-> ->]
        by (split; congruence).
      rewrite !deadline_hit_app, deadline_hit_attempt, Hl in Hdead.
      simpl in Hdead.
      destruct (IH (S k) (h ++ attempt_events h ++ zzz) rest r1 tr1)
        as [mid [tr' [Htr [Hrest [Hact Hlen]]]]];
        try assumption.
      * intros i Hi. apply Hnap. lia.
      * rewrite !posts_app. unfold attempt_events. simpl.
        rewrite length_app. simpl. lia.
      * lia.
      * intros h' rq' Hlt. apply H429. lia.
      * exists (attempt_events h ++ zzz ++ mid), tr'. repeat split.
        -- rewrite Htr. now rewrite <- !app_assoc.
        -- rewrite <- Hrest. f_equal. now rewrite <- !app_assoc.
        -- rewrite !actions_app, Hact. unfold attempt_events, zzz. simpl.
           now rewrite Hs.
        -- rewrite !posts_app, !length_app, Hlen. reflexivity.
Qed.

(** Attempts answered with statuses that are neither 200 nor 429: no sleep,
    and the loop goes on until the attempts are used up. *)
Lemma other_steps (attempts : list Z) :
  (forall h' rq', status_code (respond env h' rq') <> 200%Z /\
                  status_code (respond env h' rq') <> 429%Z) ->
  forall (h : list Event) (r : result (option string)) (tr : list Event),
  loop attempts h = (r, tr) ->
  deadline_hit start_time timeout_sec tr = false ->
  r = Ok None /\
  actions tr = map (fun rs => Call (status_code rs)) (posts tr) /\
  length (posts tr) = length attempts.
Proof.
  intros Hs.
  induction attempts as [|a rest IH]; intros h r tr Hloop Hdead.
  - injection Hloop as <- <-. auto.
  - destruct (Hs (h ++ [EvClock (now_ h)]) rq) as [H200 H429].
    fold (response h) in H200, H429.
    destruct (loop_step a rest h)
      as [[Hl E]|[[_ [Hc _]]|[[_ [Hc _]]|[Hl [_ [more [Hm E]]]]]]];
      try contradiction.
    + rewrite E in Hloop. injection Hloop as <- <-.
      rewrite deadline_hit_check in Hdead. congruence.
    + destruct Hm as [->|[_ [Hc _]]]; [|contradiction].
      rewrite E in Hloop.
      destruct (loop rest (h ++ attempt_events h ++ [])) as [r1 tr1] eqn:E1.
      cbn [fst snd] in Hloop.
      assert (r = r1 /\ tr = attempt_events h ++ [] ++ tr1) as [-> ->]
        by (split; congruence).
      rewrite !deadline_hit_app, deadline_hit_attempt, Hl in Hdead.
      simpl in Hdead.
      destruct (IH _ _ _ E1 Hdead) as [-> [Hact Hlen]].
      split; [reflexivity|]. split.
      * rewrite !actions_app, !posts_app, map_app, Hact. reflexivity.
      * rewrite !posts_app, !length_app, Hlen. reflexivity.
Qed.


(** Whatever the clock, the endpoint and the sleep do, a request follows a
    check that found the deadline not passed, a check that finds it passed
    ends the loop, and then the answer is [None]. *)
Lemma loop_deadline (attempts : list Z) :
  forall h : list Event,
  deadline_respected start_time timeout_sec (snd (loop attempts h)) = true /\
  (deadline_hit start_time timeout_sec (snd (loop attempts h)) = true ->
   fst (loop attempts h) = Ok None).
Proof.
  induction attempts as [|a rest IH]; intros h.
  - simpl. auto.
  - destruct (loop_step a rest h)
      as [[Hl E]|[[Hl [_ E]]|[[Hl [_ [_ [e [_ E]]]]]|[Hl [_ [more [Hm E]]]]]]];
      rewrite E; cbn [fst snd].
    + simpl. fold (late h). rewrite Hl. auto.
    + rewrite deadline_hit_attempt, Hl.
      unfold attempt_events. simpl. fold (late h). rewrite Hl.
      split; [reflexivity | discriminate].
    + rewrite deadline_hit_attempt, Hl.
      unfold attempt_events. simpl. fold (late h). rewrite Hl.
      split; [reflexivity | discriminate].
    + destruct (IH (h ++ attempt_events h ++ more)) as [IH1 IH2].
      rewrite !deadline_hit_app, deadline_hit_attempt, Hl.
      destruct Hm as [->|[-> _]]; unfold attempt_events in *; simpl in *;
        fold (late h); rewrite Hl; auto.
Qed.

(** [N] attempts answered 429 and then one answered 200. *)
Lemma loop_retries (N : nat) (answer : string) (rest : list Z)
    (h : list Event) (r : result (option string)) (tr : list Event) :
  (N <= 1024)%nat ->
  (forall i, (i < N)%nat ->
     sleep_error env (backoff retry_delay_sec i) = None) ->
  length (posts h) = 0%nat ->
  (Z.of_nat N <= max_retry_attempt)%Z ->
  (forall h' rq', (length (posts h') < N)%nat ->
     status_code (respond env h' rq') = 429%Z) ->
  (forall h' rq', length (posts h') = N ->
     status_code (respond env h' rq') = 200%Z /\
     extract_answer (respond env h' rq') = Ok answer) ->
  loop (map Z.of_nat (seq 0 N) ++ Z.of_nat N :: rest) h = (r, tr) ->
  deadline_hit start_time timeout_sec tr = false ->
  r = Ok (Some answer) /\
  actions tr =
    flat_map (fun i => [Call 429; Wait (backoff retry_delay_sec i)]) (seq 0 N)
    ++ [Call 200].
Proof.
  intros HN Hsleep H0 Hmax H429 H200 Hloop Hdead.
  destruct (backoff_steps N 0 h (Z.of_nat N :: rest) r tr)
    as [mid [tr' [-> [Hrest [Hact Hlen]]]]]; try assumption.
  { intros i Hi. apply nap_accepted; [lia | apply Hsleep; lia]. }
  rewrite deadline_hit_app in Hdead. apply orb_false_elim in Hdead as [_ Hdead].
  destruct (late (h ++ mid)) eqn:Hl.
  - rewrite loop_timeout in Hrest by assumption.
    injection Hrest as <- <-. rewrite deadline_hit_check in Hdead. congruence.
  - destruct (H200 ((h ++ mid) ++ [EvClock (now_ (h ++ mid))]) rq) as [Hs Hx].
    { rewrite posts_check, posts_app, length_app. lia. }
    rewrite loop_success in Hrest by assumption.
    fold (response (h ++ mid)) in Hx. rewrite Hx in Hrest.
    injection Hrest as <- <-. split; [reflexivity|].
    rewrite actions_app, Hact. unfold attempt_events. simpl.
    fold (response (h ++ mid)) in Hs. now rewrite Hs.
Qed.


(** A first answer that is neither 200 nor 429 is followed at once by the
    check and the request of the next attempt. *)
Lemma loop_other_then_next (a1 a2 : Z) (rest : list Z) (h : list Event)
    (r : result (option string)) (tr : list Event) :
  status_code (response h) <> 200%Z ->
  status_code (response h) <> 429%Z ->
  loop (a1 :: a2 :: rest) h = (r, tr) ->
  deadline_hit start_time timeout_sec tr = false ->
  exists t1 rs1 tr',
    tr = attempt_events h ++ EvClock t1 :: EvPost rq rs1 :: tr'.
Proof.
  intros H200 H429 Hloop Hdead.
  destruct (loop_step a1 (a2 :: rest) h)
    as [[Hl E]|[[_ [Hc _]]|[[_ [Hc _]]|[Hl [_ [more [Hm E]]]]]]];
    try contradiction.
  { rewrite E in Hloop. injection Hloop as <- <-.
    rewrite deadline_hit_check in Hdead. congruence. }
  destruct Hm as [->|[_ [Hc _]]]; [|contradiction].
  set (h1 := h ++ attempt_events h ++ []) in *.
  rewrite E in Hloop.
  assert (tr = attempt_events h ++ [] ++ snd (loop (a2 :: rest) h1)) as ->
    by congruence.
  rewrite !deadline_hit_app in Hdead.
  apply orb_false_elim in Hdead as [_ Hdead].
  apply orb_false_elim in Hdead as [_ Hdead].
  exists (now_ h1), (response h1).
  destruct (loop_step a2 rest h1)
    as [[Hl1 E1]|[[_ [_ E1]]|[[_ [_ [_ [e [_ E1]]]]]|[_ [_ [more [_ E1]]]]]]];
    rewrite E1 in *; cbn [fst snd] in *.
  - rewrite deadline_hit_check in Hdead. congruence.
  - exists []. reflexivity.
  - exists []. reflexivity.
  - eexists. reflexivity.
Qed.

(** *** What every run of the loop keeps *)

Lemma requests_app (t1 t2 : list Event) :
  requests (t1 ++ t2) = requests t1 ++ requests t2.
Proof. unfold requests. apply flat_map_app. Qed.

Lemma waits_app (t1 t2 : list Event) : waits (t1 ++ t2) = waits t1 ++ waits t2.
Proof. unfold waits. apply flat_map_app. Qed.

(** Not more requests than attempts. *)
Lemma loop_posts_bound (attempts : list Z) :
  forall h, (length (posts (snd (loop attempts h))) <= length attempts)%nat.
Proof.
  induction attempts as [|a rest IH]; intros h; [simpl; lia|].
  destruct (loop_step a rest h)
    as [[_ E]|[[_ [_ E]]|[[_ [_ [_ [e [_ E]]]]]|[_ [_ [more [Hm E]]]]]]];
    rewrite E; cbn [fst snd length]; try (simpl; lia).
  rewrite !posts_app, !length_app.
  specialize (IH (h ++ attempt_events h ++ more)).
  assert (length (posts more) = 0)%nat as ->
    by (destruct Hm as [->|[-> _]]; reflexivity).
  change (length (posts (attempt_events h))) with 1%nat. lia.
Qed.

(** Every request is the same one. *)
Lemma loop_requests (attempts : list Z) :
  forall h, Forall (eq rq) (requests (snd (loop attempts h))).
Proof.
  induction attempts as [|a rest IH]; intros h; [constructor|].
  destruct (loop_step a rest h)
    as [[_ E]|[[_ [_ E]]|[[_ [_ [_ [e [_ E]]]]]|[_ [_ [more [Hm E]]]]]]];
    rewrite E; cbn [fst snd].
  - constructor.
  - repeat constructor.
  - repeat constructor.
  - rewrite !requests_app. apply Forall_app. split; [repeat constructor|].
    apply Forall_app. split; [|apply IH].
    destruct Hm as [->|[-> _]]; constructor.
Qed.

(** A response 200 is the last event of the run and decides its result. *)
Lemma loop_success_last (attempts : list Z) :
  forall h pre rq' rs post,
  snd (loop attempts h) = pre ++ EvPost rq' rs :: post ->
  status_code rs = 200%Z ->
  post = [] /\ fst (loop attempts h) = answer_of rs.
Proof.
  induction attempts as [|a rest IH]; intros h pre rq' rs post Heq Hs.
  { destruct pre; discriminate. }
  destruct (loop_step a rest h)
    as [[_ E]|[[_ [H200 E]]|[[_ [H429 [_ [e [_ E]]]]]|[_ [Hne [more [Hm E]]]]]]];
    rewrite E in *; cbn [fst snd] in *; unfold attempt_events in Heq.
  - destruct pre as [|x [|y pre]]; discriminate.
  - destruct pre as [|x [|y [|z pre]]]; try discriminate.
    injection Heq as _ _ <- <-. auto.
  - destruct pre as [|x [|y [|z pre]]]; try discriminate.
    injection Heq as _ _ <- _. congruence.
  - destruct pre as [|x [|y pre]]; try discriminate.
    + injection Heq as _ _ <- _. congruence.
    + injection Heq as _ _ Heq.
      destruct Hm as [->|[-> _]].
      * eapply IH; eassumption.
      * destruct pre as [|z pre]; [discriminate|].
        injection Heq as _ Heq. eapply IH; eassumption.
Qed.

(** An answer comes from a response 200, the last event of the run. *)
Lemma loop_answer_from_200 (attempts : list Z) :
  forall h answer,
  fst (loop attempts h) = Ok (Some answer) ->
  exists pre rs,
    snd (loop attempts h) = pre ++ [EvPost rq rs] /\
    status_code rs = 200%Z /\ extract_answer rs = Ok answer.
Proof.
  induction attempts as [|a rest IH]; intros h answer Hres.
  { discriminate. }
  destruct (loop_step a rest h)
    as [[_ E]|[[_ [H200 E]]|[[_ [H429 [_ [e [_ E]]]]]|[_ [Hne [more [Hm E]]]]]]];
    rewrite E in *; cbn [fst snd] in *; try discriminate.
  - exists [EvClock (now_ h)], (response h). repeat split; try assumption.
    unfold answer_of in Hres.
    destruct (extract_answer (response h)); congruence.
  - destruct (IH _ _ Hres) as [pre [rs [Htr [Hs Hx]]]].
    exists (attempt_events h ++ more ++ pre), rs. repeat split; try assumption.
    rewrite Htr. now rewrite <- !app_assoc.
Qed.

(** A sleep comes right after a response 429 to an attempt before the last
    allowed one, and its length is the backoff of that attempt. *)
Lemma loop_sleep_after_429 (n : nat) :
  forall k h pre d post,
  snd (loop (map Z.of_nat (seq k n)) h) = pre ++ EvSleep d :: post ->
  exists pre' rs,
    pre = pre' ++ [EvPost rq rs] /\
    status_code rs = 429%Z /\
    d = backoff retry_delay_sec (k + length (posts pre')) /\
    (Z.of_nat (k + length (posts pre')) < max_retry_attempt)%Z.
Proof.
  induction n as [|n IH]; intros k h pre d post Heq.
  { destruct pre; discriminate. }
  cbn [seq map] in Heq.
  destruct (loop_step (Z.of_nat k) (map Z.of_nat (seq (S k) n)) h)
    as [[_ E]|[[_ [H200 E]]|[[_ [H429 [_ [e [_ E]]]]]|[_ [Hne [more [Hm E]]]]]]];
    rewrite E in *; cbn [fst snd] in *; unfold attempt_events in Heq.
  - destruct pre as [|x [|y pre]]; discriminate.
  - destruct pre as [|x [|y [|z pre]]]; discriminate.
  - destruct pre as [|x [|y [|z pre]]]; discriminate.
  - destruct pre as [|x [|y pre]]; try discriminate.
    injection Heq as <- <- Heq.
    destruct Hm as [->|[-> [H429 [Hlt _]]]].
    + destruct (IH _ _ _ _ _ Heq) as [pre' [rs [-> [Hs [Hd Hk]]]]].
      exists (EvClock (now_ h) :: EvPost rq (response h) :: pre'), rs.
      repeat split; try assumption.
      * rewrite Hd. f_equal. simpl. lia.
      * simpl. lia.
    + destruct pre as [|z pre].
      * injection Heq as <- _.
        exists [EvClock (now_ h)], (response h). simpl.
        rewrite Nat.add_0_r. repeat split; assumption.
      * injection Heq as <- Heq.
        destruct (IH _ _ _ _ _ Heq) as [pre' [rs [-> [Hs [Hd Hk]]]]].
        exists (EvClock (now_ h) :: EvPost rq (response h)
                  :: EvSleep (delay_of (Z.of_nat k)) :: pre'), rs.
        repeat split; try assumption.
        -- rewrite Hd. f_equal. simpl. lia.
        -- simpl. lia.
Qed.

(** *** The waiting time of a run *)

(** What attempt [a] may add to the waiting time. *)
Let allowance (a : Z) : Q :=
  if (a <? max_retry_attempt)%Z then delay_of a else 0.

Lemma delay_of_nonneg (a : Z) : (0 <= retry_delay_sec)%Q -> (0 <= delay_of a)%Q.
Proof.
  intros H. apply Qmult_le_0_compat; [assumption|].
  unfold Qle. simpl. rewrite Z.mul_1_r. apply Z.pow_nonneg. lia.
Qed.

Lemma allowance_nonneg (a : Z) : (0 <= retry_delay_sec)%Q -> (0 <= allowance a)%Q.
Proof.
  intros H. unfold allowance.
  destruct (a <? max_retry_attempt)%Z; [now apply delay_of_nonneg | apply Qle_refl].
Qed.

Lemma allowances_nonneg (attempts : list Z) :
  (0 <= retry_delay_sec)%Q -> (0 <= qsum (map allowance attempts))%Q.
Proof.
  intros H. induction attempts as [|a rest IH]; simpl; [apply Qle_refl|].
  rewrite <- (Qplus_0_l 0). apply Qplus_le_compat; [now apply allowance_nonneg | exact IH].
Qed.

Lemma loop_wait_budget (attempts : list Z) :
  (0 <= retry_delay_sec)%Q ->
  forall h,
  (qsum (waits (snd (loop attempts h))) <= qsum (map allowance attempts))%Q.
Proof.
  intros Hd. induction attempts as [|a rest IH]; intros h; [apply Qle_refl|].
  pose proof (allowances_nonneg (a :: rest) Hd) as Hall.
  destruct (loop_step a rest h)
    as [[_ E]|[[_ [_ E]]|[[_ [_ [_ [e [_ E]]]]]|[_ [_ [more [Hm E]]]]]]];
    rewrite E; cbn [fst snd]; try exact Hall.
  rewrite !waits_app. change (waits (attempt_events h)) with (@nil Q).
  cbn [app]. specialize (IH (h ++ attempt_events h ++ more)).
  destruct Hm as [->|[-> [_ [Hlt _]]]]; cbn [waits flat_map app map qsum fold_right].
  - apply Qle_trans with (0 + qsum (map allowance rest))%Q.
    + rewrite Qplus_0_l. exact IH.
    + apply Qplus_le_compat; [now apply allowance_nonneg | apply Qle_refl].
  - apply Qplus_le_compat; [|exact IH].
    unfold allowance. apply Z.ltb_lt in Hlt. rewrite Hlt. apply Qle_refl.
Qed.

Lemma allowances_before_last (M : nat) :
  max_retry_attempt = Z.of_nat M ->
  map allowance (map Z.of_nat (seq 0 M)) =
  map (backoff retry_delay_sec) (seq 0 M).
Proof.
  intros HM. rewrite map_map. apply map_ext_in. intros i Hi.
  apply in_seq in Hi. unfold allowance, delay_of, backoff.
  assert ((Z.of_nat i <? max_retry_attempt)%Z = true) as ->
    by (apply Z.ltb_lt; lia).
  reflexivity.
Qed.

End LoopFacts.

(** ** [ask_gemini] *)

Lemma ask_gemini_run (env : Env) (question api_key : string)
    (header_ : list (string * string)) (retry_delay_sec : Q)
    (max_retry_attempt : Z) (timeout_sec : Q) (h : list Event) :
  let start_time := clock_of env h in
  let rest :=
    attempt_loop env api_key header_ retry_delay_sec max_retry_attempt
      timeout_sec (question_data question) start_time
      (py_range (max_retry_attempt + 1)) (h ++ [EvClock start_time]) in
  ask_gemini env question api_key header_ retry_delay_sec max_retry_attempt
    timeout_sec h = (fst rest, EvClock start_time :: snd rest).
Proof.
  cbv zeta. unfold ask_gemini, io_bind, monotonic.
  destruct (attempt_loop _ _ _ _ _ _ _ _ _ _) as [r tr]. reflexivity.
Qed.

Lemma py_range_split (N : nat) (max_retry_attempt : Z) :
  (Z.of_nat N <= max_retry_attempt)%Z ->
  exists rest,
    py_range (max_retry_attempt + 1) =
    map Z.of_nat (seq 0 N) ++ Z.of_nat N :: rest.
Proof.
  intros H. unfold py_range.
  replace (Z.to_nat (max_retry_attempt + 1))
    with (N + S (Z.to_nat max_retry_attempt - N))%nat by lia.
  rewrite seq_app, map_app. simpl. eauto.
Qed.

Lemma py_range_last (M : nat) :
  py_range (Z.of_nat M + 1) = map Z.of_nat (seq 0 M) ++ [Z.of_nat M].
Proof.
  unfold py_range.
  replace (Z.to_nat (Z.of_nat M + 1)) with (S M) by lia.
  rewrite seq_S, map_app. reflexivity.
Qed.

Lemma length_py_range (n : Z) : length (py_range n) = Z.to_nat n.
Proof. unfold py_range. now rewrite length_map, length_seq. Qed.

Lemma posts_actions (tr : list Event) :
  length (posts tr) =
  length (filter (fun a => match a with Call _ => true | Wait _ => false end)
            (actions tr)).
Proof.
  induction tr as [|[t|rq rs|d] tr IH]; simpl; auto.
Qed.

Lemma calls_of_backoffs (retry_delay_sec : Q) (l : list nat) :
  length (filter (fun a => match a with Call _ => true | Wait _ => false end)
            (flat_map (fun i => [Call 429; Wait (backoff retry_delay_sec i)]) l))
  = length l.
Proof.
  induction l as [|i l IH]; simpl; [reflexivity | now rewrite IH].
Qed.

(** What [deadline_respected] says of a trace, event by event. *)
Lemma deadline_respected_spec (s T : Q) (tr : list Event) :
  deadline_respected s T tr = true ->
  (forall pre rq rs post, tr = pre ++ EvPost rq rs :: post ->
     exists pre' t, pre = pre' ++ [EvClock t] /\ Qgtb (t - s) T = false) /\
  (forall pre t post, tr = pre ++ EvClock t :: post ->
     Qgtb (t - s) T = true -> post = []).
Proof.
  remember (length tr) as n eqn:Hn.
  assert (length tr <= n)%nat as Hle by lia. clear Hn.
  revert tr Hle.
  induction n as [|n IH]; intros tr Hle H.
  - destruct tr; [|simpl in Hle; lia].
    split; intros [|x pre]; intros; discriminate.
  - destruct tr as [|e tr']; [split; intros [|x pre]; intros; discriminate|].
    simpl in Hle. destruct e as [t0|rq0 rs0|d]; simpl in H.
    + destruct (Qgtb (t0 - s) T) eqn:L.
      * destruct tr'; [|discriminate]. split.
        -- intros [|x [|y pre]] rq rs post Heq; discriminate.
        -- intros [|x [|y pre]] t post Heq _; try discriminate.
           now injection Heq as _ <-.
      * destruct tr' as [|[t1|rq1 rs1|d1] tr'']; try discriminate.
        simpl in Hle. destruct (IH tr'') as [IHp IHc]; [lia | assumption |].
        split.
        -- intros [|x [|y pre]] rq rs post Heq; try discriminate.
           ++ injection Heq as <- _ _ _. exists [], t0. auto.
           ++ injection Heq as <- <- Heq.
              destruct (IHp _ _ _ _ Heq) as [pre' [t [-> Ht]]].
              exists (EvClock t0 :: EvPost rq1 rs1 :: pre'), t. auto.
        -- intros [|x [|y pre]] t post Heq Ht; try discriminate.
           ++ injection Heq as <- _. congruence.
           ++ injection Heq as _ _ Heq. eapply IHc; eassumption.
    + discriminate.
    + destruct (IH tr') as [IHp IHc]; [lia | assumption |]. split.
      * intros [|x pre] rq rs post Heq; try discriminate.
        injection Heq as <- Heq.
        destruct (IHp _ _ _ _ Heq) as [pre' [t [-> Ht]]].
        exists (EvSleep d :: pre'), t. auto.
      * intros [|x pre] t post Heq Ht; try discriminate.
        injection Heq as _ Heq. eapply IHc; eassumption.
Qed.

(** C4. In a run of [ask_gemini], after the reading of the start time every
    request comes right after a clock reading that is not more than
    [timeout_sec] beyond the start; a reading that is more than [timeout_sec]
    beyond the start is the last event of the run, whatever attempts remain,
    and the run then returns [None]. *)
Theorem ask_gemini_deadline (env : Env) (question api_key : string)
    (header_ : list (string * string)) (retry_delay_sec : Q)
    (max_retry_attempt : Z) (timeout_sec : Q) :
  let run := ask_gemini env question api_key header_ retry_delay_sec
               max_retry_attempt timeout_sec [] in
  let start_time := clock_of env [] in
  snd run = EvClock start_time :: tl (snd run) /\
  (forall pre rq rs post,
     tl (snd run) = pre ++ EvPost rq rs :: post ->
     exists pre' t,
       pre = pre' ++ [EvClock t] /\ ~ (timeout_sec < t - start_time)%Q) /\
  (forall pre t post,
     tl (snd run) = pre ++ EvClock t :: post ->
     (timeout_sec < t - start_time)%Q ->
     post = [] /\ fst run = Ok None).
Proof.
  cbv zeta. rewrite ask_gemini_run. cbn [fst snd tl app].
  split; [reflexivity|].
  destruct (loop_deadline env api_key header_ retry_delay_sec
              max_retry_attempt timeout_sec (question_data question)
              (clock_of env []) (py_range (max_retry_attempt + 1))
              [EvClock (clock_of env [])]) as [Hresp Hhit].
  destruct (deadline_respected_spec _ _ _ Hresp) as [Hp Hc].
  split.
  - intros pre rq rs post Heq.
    destruct (Hp _ _ _ _ Heq) as [pre' [t [-> Ht]]].
    exists pre', t. split; [reflexivity|].
    intros Hlt. apply Qgtb_lt in Hlt. congruence.
  - intros pre t post Heq Hlt. apply Qgtb_lt in Hlt. split.
    + eapply Hc; eassumption.
    + apply Hhit. rewrite Heq, deadline_hit_app. simpl.
      rewrite Hlt. apply orb_true_r.
Qed.

Lemma ask_gemini_deadline_witness :
  let run := ask_gemini (scripted [] (status_only 429) 0) "q" "key" header
               5 3 12 [] in
  actions (snd run) = [Call 429; Wait 5; Call 429; Wait 10] /\
  fst run = Ok None.
Proof.
  split; [vm_compute; reflexivity|].
  refine (proj2 (proj2 (proj2 (ask_gemini_deadline
            (scripted [] (status_only 429) 0) "q" "key" header 5 3 12))
            (firstn 6 (tl (snd (ask_gemini (scripted [] (status_only 429) 0)
                                  "q" "key" header 5 3 12 []))))
            15 [] _ _)).
  - vm_compute. reflexivity.
  - vm_compute. reflexivity.
Defined.

(** C3, with the deadline taken into account. When the endpoint answers 429
    to the first [N] requests ([N < max_retry_attempt]) and 200 to the next,
    and no check of the run finds the deadline passed, the run makes exactly
    [N + 1] requests, sleeps [retry_delay_sec * 2^i] after the request
    numbered [i] for [i = 0 .. N-1], and returns the answer of the 200
    response.  The backoffs have to go well: [N <= 1024], so that every
    [2 ** attempt] converts to a float, and [time.sleep] accepts each of the
    lengths; and the 200 response has to carry an answer. *)
Theorem ask_gemini_retries_rate_limit (env : Env) (question api_key : string)
    (header_ : list (string * string)) (retry_delay_sec : Q)
    (max_retry_attempt : Z) (timeout_sec : Q) (N : nat) (answer : string) :
  (N <= 1024)%nat ->
  (forall i, (i < N)%nat ->
     sleep_error env (backoff retry_delay_sec i) = None) ->
  (Z.of_nat N < max_retry_attempt)%Z ->
  (forall h rq, (length (posts h) < N)%nat ->
     status_code (respond env h rq) = 429%Z) ->
  (forall h rq, length (posts h) = N ->
     status_code (respond env h rq) = 200%Z /\
     extract_answer (respond env h rq) = Ok answer) ->
  let run := ask_gemini env question api_key header_ retry_delay_sec
               max_retry_attempt timeout_sec [] in
  deadline_hit (clock_of env []) timeout_sec (tl (snd run)) = false ->
  fst run = Ok (Some answer) /\
  actions (snd run) =
    flat_map (fun i => [Call 429; Wait (backoff retry_delay_sec i)]) (seq 0 N)
    ++ [Call 200] /\
  length (posts (snd run)) = S N.
Proof.
  intros HN Hsleep Hmax H429 H200. cbv zeta. rewrite ask_gemini_run.
  cbn [fst snd tl app]. intros Hdead.
  destruct (py_range_split N max_retry_attempt) as [rest Hrange]; [lia|].
  rewrite Hrange in *.
  destruct (attempt_loop _ _ _ _ _ _ _ _ _ _) as [r tr] eqn:E.
  cbn [fst snd] in *.
  destruct (loop_retries _ _ _ _ _ _ _ _ N answer rest
              [EvClock (clock_of env [])] r tr
              HN Hsleep eq_refl (Z.lt_le_incl _ _ Hmax) H429 H200 E Hdead)
    as [-> Hact].
  assert (actions (EvClock (clock_of env []) :: tr) = actions tr) as Hact'
    by reflexivity.
  split; [reflexivity|]. split; [now rewrite Hact', Hact|].
  rewrite posts_actions, Hact', Hact.
  rewrite filter_app, length_app, calls_of_backoffs, length_seq. simpl. lia.
Qed.

Lemma ask_gemini_retries_rate_limit_witness :
  let run := ask_gemini
               (scripted [status_only 429; status_only 429]
                  (success ["Check the sum."; "Then the sign."]) 0)
               "q" "key" header 5 3 60 [] in
  fst run = Ok (Some ("Check the sum." +++ LF +++ "Then the sign.")) /\
  actions (snd run) =
    [Call 429; Wait (backoff 5 0); Call 429; Wait (backoff 5 1); Call 200] /\
  length (posts (snd run)) = 3%nat.
Proof.
  apply (ask_gemini_retries_rate_limit
           (scripted [status_only 429; status_only 429]
              (success ["Check the sum."; "Then the sign."]) 0)
           "q" "key" header 5 3 60 2
           ("Check the sum." +++ LF +++ "Then the sign.")).
  - lia.
  - intros [|[|i]] Hi; [reflexivity | reflexivity | lia].
  - reflexivity.
  - intros h rq Hlt. simpl.
    destruct (length (posts h)) as [|[|n]]; [reflexivity | reflexivity | lia].
  - intros h rq Heq. simpl. rewrite Heq. split; reflexivity.
  - vm_compute. reflexivity.
Defined.

(** The transport of C3 with a deadline of one second: the first backoff
    sleep of five seconds runs past it and the second request is not sent. *)
Lemma rate_limit_retry_cut_by_deadline :
  let env := scripted [status_only 429] (success ["Check the sum."]) 0 in
  let run := ask_gemini env "q" "key" header 5 3 1 [] in
  (forall h rq, (length (posts h) < 1)%nat ->
     status_code (respond env h rq) = 429%Z) /\
  (forall h rq, length (posts h) = 1%nat ->
     status_code (respond env h rq) = 200%Z /\
     extract_answer (respond env h rq) = Ok "Check the sum.") /\
  fst run = Ok None /\
  actions (snd run) = [Call 429; Wait (backoff 5 0)] /\
  length (posts (snd run)) = 1%nat.
Proof.
  cbv zeta. split; [|split].
  - intros h rq Hlt. simpl.
    destruct (length (posts h)) as [|n]; [reflexivity | lia].
  - intros h rq Heq. simpl. rewrite Heq. split; reflexivity.
  - vm_compute. repeat split; reflexivity.
Qed.




(** A transport that answers 500 to every request is asked four times with
    the default of three retries, and an answer 200 that follows a 500 is
    returned. *)
Lemma server_error_is_retried :
  let always := ask_gemini (scripted [] (status_only 500) 0) "q" "key" header
                  5 3 60 [] in
  let once := ask_gemini (scripted [status_only 500] (success ["Check the sum."]) 0)
                "q" "key" header 5 3 60 [] in
  actions (snd always) = [Call 500; Call 500; Call 500; Call 500] /\
  length (posts (snd always)) = 4%nat /\
  actions (snd once) = [Call 500; Call 200] /\
  fst once = Ok (Some "Check the sum.").
Proof.
  vm_compute. repeat split; reflexivity.
Qed.

(** C1, as the code has it. In a run where no check finds the deadline
    passed: a first answer whose status is neither 200 nor 429 is followed,
    without a sleep, by the check and the request of the next attempt (there
    is one when [max_retry_attempt >= 1]); and when every request is answered
    with such a status, the same or another from call to call,
    [max_retry_attempt + 1] requests are sent, no sleep occurs and the run
    returns [None]. *)
Theorem ask_gemini_other_status_goes_on (env : Env) (question api_key : string)
    (header_ : list (string * string)) (retry_delay_sec : Q)
    (max_retry_attempt : Z) (timeout_sec : Q) :
  let run := ask_gemini env question api_key header_ retry_delay_sec
               max_retry_attempt timeout_sec [] in
  let rq := request api_key header_ question in
  let start_time := clock_of env [] in
  let t0 := clock_of env [EvClock start_time] in
  let rs0 := respond env [EvClock start_time; EvClock t0] rq in
  deadline_hit start_time timeout_sec (tl (snd run)) = false ->
  ((1 <= max_retry_attempt)%Z ->
   status_code rs0 <> 200%Z -> status_code rs0 <> 429%Z ->
   exists t1 rs1 tr',
     snd run = EvClock start_time :: EvClock t0 :: EvPost rq rs0 ::
               EvClock t1 :: EvPost rq rs1 :: tr') /\
  ((forall h rq', status_code (respond env h rq') <> 200%Z /\
                   status_code (respond env h rq') <> 429%Z) ->
   fst run = Ok None /\
   actions (snd run) = map (fun rs => Call (status_code rs)) (posts (snd run)) /\
   length (posts (snd run)) = Z.to_nat (max_retry_attempt + 1)).
Proof.
  cbv zeta. rewrite ask_gemini_run. cbn [fst snd tl app]. intros Hdead.
  destruct (attempt_loop _ _ _ _ _ _ _ _ _ _) as [r tr] eqn:E.
  cbn [fst snd] in *. split.
  - intros Hmax H200 H429.
    destruct (py_range_split 1 max_retry_attempt Hmax) as [rest Hrange].
    rewrite Hrange in E. cbn [seq map app] in E.
    destruct (loop_other_then_next env api_key header_ retry_delay_sec
                max_retry_attempt timeout_sec (question_data question)
                (clock_of env []) _ _ rest [EvClock (clock_of env [])] r tr
                H200 H429 E Hdead) as [t1 [rs1 [tr' ->]]].
    exists t1, rs1, tr'. reflexivity.
  - intros Hs.
    destruct (other_steps _ _ _ _ _ _ _ _ _ Hs _ _ _ E Hdead)
      as [-> [Hact Hlen]].
    split; [reflexivity|].
    change (actions (EvClock (clock_of env []) :: tr)) with (actions tr).
    change (posts (EvClock (clock_of env []) :: tr)) with (posts tr).
    split; [exact Hact | now rewrite Hlen, length_py_range].
Qed.

Lemma ask_gemini_other_status_goes_on_witness :
  let run := ask_gemini
               (scripted [status_only 500; status_only 503; status_only 500]
                  (status_only 503) 1)
               "q" "key" header 5 3 60 [] in
  fst run = Ok None /\
  actions (snd run) = map (fun rs => Call (status_code rs)) (posts (snd run)) /\
  length (posts (snd run)) = 4%nat.
Proof.
  refine (proj2 (ask_gemini_other_status_goes_on
                   (scripted [status_only 500; status_only 503; status_only 500]
                      (status_only 503) 1)
                   "q" "key" header 5 3 60 _) _).
  - vm_compute. reflexivity.
  - intros h rq. simpl.
    destruct (length (posts h)) as [|[|[|[|n]]]]; simpl; split; discriminate.
Defined.

(* ================================================================== *)
(** * Further properties of the client *)

Lemma qsum_app (l1 l2 : list Q) : (qsum (l1 ++ l2) == qsum l1 + qsum l2)%Q.
Proof.
  induction l1 as [|x l1 IH]; simpl; [ring | rewrite IH; ring].
Qed.

(** X1. Whatever the clock and the endpoint do, a run of [ask_gemini] sends
    at most [max_retry_attempt + 1] requests; with a negative
    [max_retry_attempt] it reads the clock once, sends nothing and returns
    [None]. *)
Theorem ask_gemini_request_bound (env : Env) (question api_key : string)
    (header_ : list (string * string)) (retry_delay_sec : Q)
    (max_retry_attempt : Z) (timeout_sec : Q) :
  let run := ask_gemini env question api_key header_ retry_delay_sec
               max_retry_attempt timeout_sec [] in
  (length (posts (snd run)) <= Z.to_nat (max_retry_attempt + 1))%nat /\
  ((max_retry_attempt < 0)%Z -> run = (Ok None, [EvClock (clock_of env [])])).
Proof.
  cbv zeta. rewrite ask_gemini_run. cbn [fst snd app]. split.
  - change (posts (EvClock (clock_of env []) :: ?tr)) with (posts tr).
    rewrite <- length_py_range. apply loop_posts_bound.
  - intros Hneg. unfold py_range.
    replace (Z.to_nat (max_retry_attempt + 1)) with 0%nat by lia.
    reflexivity.
Qed.

Lemma ask_gemini_request_bound_witness :
  ask_gemini (scripted [] (status_only 429) 0) "q" "key" header 5 (-1) 60 []
  = (Ok None, [EvClock 0]).
Proof.
  refine (proj2 (ask_gemini_request_bound (scripted [] (status_only 429) 0)
                   "q" "key" header 5 (-1) 60) _).
  reflexivity.
Defined.

(** X2. Every request of a run is the same one: the URL made of the API key,
    the given headers, and the question as the single text part of the
    body. *)
Theorem ask_gemini_same_request (env : Env) (question api_key : string)
    (header_ : list (string * string)) (retry_delay_sec : Q)
    (max_retry_attempt : Z) (timeout_sec : Q) :
  Forall (eq (request api_key header_ question))
    (requests (snd (ask_gemini env question api_key header_ retry_delay_sec
                      max_retry_attempt timeout_sec []))).
Proof.
  rewrite ask_gemini_run. cbn [fst snd app].
  change (requests (EvClock (clock_of env []) :: ?tr)) with (requests tr).
  apply loop_requests.
Qed.

Lemma ask_gemini_success_last (env : Env) (question api_key : string)
    (header_ : list (string * string)) (retry_delay_sec : Q)
    (max_retry_attempt : Z) (timeout_sec : Q)
    (pre : list Event) (rq : Request) (rs : Response) (post : list Event) :
  let run := ask_gemini env question api_key header_ retry_delay_sec
               max_retry_attempt timeout_sec [] in
  snd run = pre ++ EvPost rq rs :: post ->
  status_code rs = 200%Z ->
  post = [] /\ fst run = answer_of rs.
Proof.
  cbv zeta. rewrite ask_gemini_run. cbn [fst snd app].
  intros Heq Hs.
  destruct pre as [|x pre]; [discriminate|]. injection Heq as _ Heq.
  eapply loop_success_last; eassumption.
Qed.

(** X3. A response 200 is the last event of the run and decides its result:
    the answer extracted from it, or the exception of the extraction; and a
    run that returns an answer ends with a response 200 from which that
    answer is extracted. *)
Theorem ask_gemini_answer_iff_200 (env : Env) (question api_key : string)
    (header_ : list (string * string)) (retry_delay_sec : Q)
    (max_retry_attempt : Z) (timeout_sec : Q) :
  let run := ask_gemini env question api_key header_ retry_delay_sec
               max_retry_attempt timeout_sec [] in
  (forall pre rq rs post,
     snd run = pre ++ EvPost rq rs :: post ->
     status_code rs = 200%Z ->
     post = [] /\ fst run = answer_of rs) /\
  (forall answer,
     fst run = Ok (Some answer) ->
     exists pre rs,
       snd run = pre ++ [EvPost (request api_key header_ question) rs] /\
       status_code rs = 200%Z /\ extract_answer rs = Ok answer).
Proof.
  cbv zeta. split.
  - intros pre rq rs post. apply ask_gemini_success_last.
  - rewrite ask_gemini_run. cbn [fst snd app]. intros answer Hres.
    destruct (loop_answer_from_200 _ _ _ _ _ _ _ _ _ _ _ Hres)
      as [pre [rs [Htr [Hs Hx]]]].
    exists (EvClock (clock_of env []) :: pre), rs.
    repeat split; try assumption. simpl. now rewrite Htr.
Qed.

Lemma ask_gemini_answer_iff_200_witness :
  let run := ask_gemini (scripted [status_only 500] (success ["Check the sum."]) 0)
               "q" "key" header 5 3 60 [] in
  exists pre rs,
    snd run = pre ++ [EvPost (request "key" header "q") rs] /\
    status_code rs = 200%Z /\ extract_answer rs = Ok "Check the sum.".
Proof.
  apply (proj2 (ask_gemini_answer_iff_200
                  (scripted [status_only 500] (success ["Check the sum."]) 0)
                  "q" "key" header 5 3 60)).
  vm_compute. reflexivity.
Defined.

(** X4. Every sleep of a run comes right after a response 429, its length is
    [retry_delay_sec * 2^i] where [i] is the number of requests sent before
    that one, and [i < max_retry_attempt]: there is no sleep after the last
    allowed attempt and none after any other status. *)
Theorem ask_gemini_sleep_after_429 (env : Env) (question api_key : string)
    (header_ : list (string * string)) (retry_delay_sec : Q)
    (max_retry_attempt : Z) (timeout_sec : Q) :
  let run := ask_gemini env question api_key header_ retry_delay_sec
               max_retry_attempt timeout_sec [] in
  forall pre d post,
    snd run = pre ++ EvSleep d :: post ->
    exists pre' rs,
      pre = pre' ++ [EvPost (request api_key header_ question) rs] /\
      status_code rs = 429%Z /\
      d = backoff retry_delay_sec (length (posts pre')) /\
      (Z.of_nat (length (posts pre')) < max_retry_attempt)%Z.
Proof.
  cbv zeta. rewrite ask_gemini_run. cbn [fst snd app].
  intros pre d post Heq.
  destruct pre as [|x pre]; [discriminate|]. injection Heq as <- Heq.
  unfold py_range in Heq.
  destruct (loop_sleep_after_429 _ _ _ _ _ _ _ _ _ _ _ _ _ _ Heq)
    as [pre' [rs [-> [Hs [Hd Hk]]]]].
  exists (EvClock (clock_of env []) :: pre'), rs.
  repeat split; assumption.
Qed.

Lemma ask_gemini_sleep_after_429_witness :
  let run := ask_gemini (scripted [] (status_only 429) 0) "q" "key" header
               5 3 60 [] in
  exists pre' rs,
    firstn 6 (snd run) = pre' ++ [EvPost (request "key" header "q") rs] /\
    status_code rs = 429%Z /\
    10 = backoff 5 (length (posts pre')) /\
    (Z.of_nat (length (posts pre')) < 3)%Z.
Proof.
  apply (ask_gemini_sleep_after_429 (scripted [] (status_only 429) 0)
           "q" "key" header 5 3 60
           (firstn 6 (snd (ask_gemini (scripted [] (status_only 429) 0)
                             "q" "key" header 5 3 60 [])))
           10
           (skipn 7 (snd (ask_gemini (scripted [] (status_only 429) 0)
                            "q" "key" header 5 3 60 [])))).
  vm_compute. reflexivity.
Defined.

(** X5. With a delay that is not negative, the sleeps of a run add up to at
    most [retry_delay_sec * (2^0 + ... + 2^(max_retry_attempt - 1))],
    whatever the clock and the endpoint do. *)
Theorem ask_gemini_wait_budget (env : Env) (question api_key : string)
    (header_ : list (string * string)) (retry_delay_sec : Q)
    (max_retry_attempt : Z) (timeout_sec : Q) :
  (0 <= retry_delay_sec)%Q ->
  (qsum (waits (snd (ask_gemini env question api_key header_ retry_delay_sec
                       max_retry_attempt timeout_sec [])))
   <= qsum (map (backoff retry_delay_sec)
              (seq 0 (Z.to_nat max_retry_attempt))))%Q.
Proof.
  intros Hd. rewrite ask_gemini_run. cbn [fst snd app].
  change (waits (EvClock (clock_of env []) :: ?tr)) with (waits tr).
  eapply Qle_trans; [apply loop_wait_budget; exact Hd|].
  destruct (Z.neg_nonneg_cases max_retry_attempt) as [Hneg|Hpos].
  - unfold py_range.
    replace (Z.to_nat (max_retry_attempt + 1)) with 0%nat by lia.
    replace (Z.to_nat max_retry_attempt) with 0%nat by lia.
    apply Qle_refl.
  - assert (exists M, max_retry_attempt = Z.of_nat M) as [M ->]
      by (exists (Z.to_nat max_retry_attempt); lia).
    rewrite Nat2Z.id, py_range_last, map_app.
    rewrite (allowances_before_last retry_delay_sec (Z.of_nat M) M eq_refl).
    rewrite qsum_app. cbn [map qsum fold_right].
    rewrite Z.ltb_irrefl.
    apply Qle_lteq. right. ring.
Qed.

Lemma ask_gemini_wait_budget_witness :
  (qsum (waits (snd (ask_gemini (scripted [] (status_only 429) 0) "q" "key"
                       header 5 3 60 [])))
   <= qsum (map (backoff 5) (seq 0 3)))%Q.
Proof.
  apply (ask_gemini_wait_budget (scripted [] (status_only 429) 0) "q" "key"
           header 5 3 60).
  discriminate.
Defined.

(** X6. [max_retry_attempt] counts retries: when the endpoint answers 429
    to the first [max_retry_attempt] requests and 200 with an answer to the
    next, [max_retry_attempt <= 1024] (beyond that [2 ** attempt] does not
    convert to a float), [time.sleep] accepts every backoff length and no
    check finds the deadline passed, the run sends [max_retry_attempt + 1]
    requests and returns the answer of the last. *)
Theorem ask_gemini_last_attempt_succeeds (env : Env)
    (question api_key : string) (header_ : list (string * string))
    (retry_delay_sec : Q) (N : nat) (timeout_sec : Q) (answer : string) :
  (N <= 1024)%nat ->
  (forall i, (i < N)%nat ->
     sleep_error env (backoff retry_delay_sec i) = None) ->
  (forall h rq, (length (posts h) < N)%nat ->
     status_code (respond env h rq) = 429%Z) ->
  (forall h rq, length (posts h) = N ->
     status_code (respond env h rq) = 200%Z /\
     extract_answer (respond env h rq) = Ok answer) ->
  let run := ask_gemini env question api_key header_ retry_delay_sec
               (Z.of_nat N) timeout_sec [] in
  deadline_hit (clock_of env []) timeout_sec (tl (snd run)) = false ->
  fst run = Ok (Some answer) /\
  actions (snd run) =
    flat_map (fun i => [Call 429; Wait (backoff retry_delay_sec i)]) (seq 0 N)
    ++ [Call 200] /\
  length (posts (snd run)) = S N.
Proof.
  intros HN Hsleep H429 H200. cbv zeta. rewrite ask_gemini_run.
  cbn [fst snd tl app]. intros Hdead.
  rewrite py_range_last in *.
  destruct (attempt_loop _ _ _ _ _ _ _ _ _ _) as [r tr] eqn:E.
  cbn [fst snd] in *.
  destruct (loop_retries _ _ _ _ _ _ _ _ N answer []
              [EvClock (clock_of env [])] r tr
              HN Hsleep eq_refl (Z.le_refl _) H429 H200 E Hdead) as [-> Hact].
  assert (actions (EvClock (clock_of env []) :: tr) = actions tr) as Hact'
    by reflexivity.
  split; [reflexivity|]. split; [now rewrite Hact', Hact|].
  rewrite posts_actions, Hact', Hact.
  rewrite filter_app, length_app, calls_of_backoffs, length_seq. simpl. lia.
Qed.

Lemma ask_gemini_last_attempt_succeeds_witness :
  let run := ask_gemini
               (scripted [status_only 429; status_only 429; status_only 429]
                  (success ["Check the sum."]) 0)
               "q" "key" header 5 3 60 [] in
  fst run = Ok (Some "Check the sum.") /\
  actions (snd run) =
    [Call 429; Wait (backoff 5 0); Call 429; Wait (backoff 5 1);
     Call 429; Wait (backoff 5 2); Call 200] /\
  length (posts (snd run)) = 4%nat.
Proof.
  apply (ask_gemini_last_attempt_succeeds
           (scripted [status_only 429; status_only 429; status_only 429]
              (success ["Check the sum."]) 0)
           "q" "key" header 5 3 60 "Check the sum.").
  - lia.
  - intros [|[|[|i]]] Hi; try reflexivity. lia.
  - intros h rq Hlt. simpl.
    destruct (length (posts h)) as [|[|[|n]]]; try reflexivity. lia.
  - intros h rq Heq. simpl. rewrite Heq. split; reflexivity.
  - vm_compute. reflexivity.
Defined.

(** X7. An exception of [time.sleep] leaves [ask_gemini]: when the first
    response within the deadline is 429, [max_retry_attempt >= 1] and
    [time.sleep] raises [e] on the first backoff length (a negative delay
    gives [ValueError], one beyond the range of the clock [OverflowError]),
    the run ends in [e]; one request has been sent and none follows. *)
Theorem ask_gemini_sleep_raises (env : Env) (question api_key : string)
    (header_ : list (string * string)) (retry_delay_sec : Q)
    (max_retry_attempt : Z) (timeout_sec : Q) (e : exn) :
  let rq := request api_key header_ question in
  let start_time := clock_of env [] in
  let t0 := clock_of env [EvClock start_time] in
  let rs0 := respond env [EvClock start_time; EvClock t0] rq in
  sleep_error env (backoff retry_delay_sec 0) = Some e ->
  (1 <= max_retry_attempt)%Z ->
  ~ (timeout_sec < t0 - start_time)%Q ->
  status_code rs0 = 429%Z ->
  ask_gemini env question api_key header_ retry_delay_sec max_retry_attempt
    timeout_sec [] =
  (Raise e, [EvClock start_time; EvClock t0; EvPost rq rs0]).
Proof.
  cbv zeta. intros Hsl Hmax Hlate Hs. rewrite ask_gemini_run.
  destruct (py_range_split 0 max_retry_attempt) as [rest ->]; [lia|].
  cbn [seq map app]. change (Z.of_nat 0) with 0%Z.
  rewrite (loop_bad_sleep env api_key header_ retry_delay_sec max_retry_attempt
             timeout_sec (question_data question) (clock_of env [])
             0 rest [EvClock (clock_of env [])] e);
    [reflexivity| | assumption | apply Z.ltb_lt; lia | exact Hsl].
  destruct (Qgtb _ _) eqn:E; [|reflexivity].
  apply Qgtb_lt in E. contradiction.
Qed.

Lemma ask_gemini_sleep_raises_witness :
  let env := scripted [] (status_only 429) 0 in
  ask_gemini env "q" "key" header (-1) 3 60 [] =
  (Raise ValueError,
   [EvClock 0; EvClock 0; EvPost (request "key" header "q") (status_only 429)]).
Proof.
  apply (ask_gemini_sleep_raises (scripted [] (status_only 429) 0)
           "q" "key" header (-1) 3 60 ValueError).
  - reflexivity.
  - discriminate.
  - discriminate.
  - reflexivity.
Defined.

(** ** The answer of a response *)

Lemma mapM_text (ps : list pyval) (ss : list string) :
  Forall2 (fun p s => exists pd,
             p = PDict pd /\ dict_get "text" pd = Some (PStr s)) ps ss ->
  mapM (fun part => py_getitem part "text") ps = Ok (map PStr ss).
Proof.
  induction 1 as [|p s ps ss [pd [-> Ht]] _ IH]; simpl; [reflexivity|].
  rewrite Ht. simpl. rewrite IH. reflexivity.
Qed.

Lemma strings_of_strings (ss : list string) : strings_of (map PStr ss) = Ok ss.
Proof.
  induction ss as [|s ss IH]; simpl; [reflexivity | now rewrite IH].
Qed.

(** X8. The answer of a response is the texts of the parts of its first
    candidate, joined by line feeds in their order; further candidates and
    further keys play no part, and a candidate without parts gives the empty
    string. *)
Theorem extract_answer_joins_parts (rs : Response) (d c ct : pydict)
    (others ps : list pyval) (ss : list string) :
  json rs = Ok (PDict d) ->
  dict_get "candidates" d = Some (PList (PDict c :: others)) ->
  dict_get "content" c = Some (PDict ct) ->
  dict_get "parts" ct = Some (PList ps) ->
  Forall2 (fun p s => exists pd,
             p = PDict pd /\ dict_get "text" pd = Some (PStr s)) ps ss ->
  extract_answer rs = Ok (join LF ss).
Proof.
  intros Hj Hc Hct Hp Hps. unfold extract_answer.
  rewrite Hj. simpl. rewrite Hc. simpl. rewrite Hct. simpl. rewrite Hp. simpl.
  rewrite (mapM_text _ _ Hps). simpl. now rewrite strings_of_strings.
Qed.

Lemma extract_answer_joins_parts_witness :
  extract_answer (success ["Check the sum."; "Then the sign."]) =
  Ok ("Check the sum." +++ LF +++ "Then the sign.").
Proof.
  apply (extract_answer_joins_parts
           (success ["Check the sum."; "Then the sign."])
           _ _ _ [] _ ["Check the sum."; "Then the sign."]
           eq_refl eq_refl eq_refl eq_refl).
  repeat constructor; eexists; split; reflexivity.
Defined.

(** X9. A response 200 whose body has no ['candidates'] key, or an empty
    list of candidates, does not lead to [None] and is not retried: the run
    ends there in [KeyError], respectively [IndexError]. *)
Theorem ask_gemini_malformed_success (env : Env) (question api_key : string)
    (header_ : list (string * string)) (retry_delay_sec : Q)
    (max_retry_attempt : Z) (timeout_sec : Q) :
  let run := ask_gemini env question api_key header_ retry_delay_sec
               max_retry_attempt timeout_sec [] in
  forall pre rq rs post d,
    snd run = pre ++ EvPost rq rs :: post ->
    status_code rs = 200%Z ->
    json rs = Ok (PDict d) ->
    post = [] /\
    (dict_get "candidates" d = None ->
     fst run = Raise (KeyError (PStr "candidates"))) /\
    (dict_get "candidates" d = Some (PList []) -> fst run = Raise IndexError).
Proof.
  cbv zeta. intros pre rq rs post d Heq Hs Hj.
  destruct (ask_gemini_success_last env question api_key header_
              retry_delay_sec max_retry_attempt timeout_sec
              pre rq rs post Heq Hs) as [-> Hres].
  split; [reflexivity|]. rewrite Hres. unfold answer_of, extract_answer.
  rewrite Hj. simpl. split; intros ->; reflexivity.
Qed.

Lemma ask_gemini_malformed_success_witness :
  let empty := {| status_code := 200; text := "";
                  json := Ok (PDict [("candidates", PList [])]) |} in
  fst (ask_gemini (scripted [] empty 0) "q" "key" header 5 3 60 [])
  = Raise IndexError.
Proof.
  intros empty.
  refine (proj2 (proj2 (ask_gemini_malformed_success
            (scripted [] empty 0) "q" "key" header 5 3 60
            [EvClock 0; EvClock 0] (request "key" header "q") empty []
            [("candidates", PList [])] _ _ _)) _);
    vm_compute; reflexivity.
Defined.

(** ** [gemini_qna] *)

Lemma gemini_qna_run (env : Env) (host : Host)
    (report_paths student_files : pyseq Path) (readme_file : Path)
    (api_key explanation_in : string) :
  gemini_qna env host report_paths student_files readme_file api_key
    explanation_in [] =
  match get_prompt host report_paths student_files readme_file explanation_in
  with
  | Ok prompt => ask_gemini env prompt api_key header 5 3 60 []
  | Raise e => (Raise e, [])
  end.
Proof.
  unfold gemini_qna, io_bind, io_lift.
  destruct (get_prompt _ _ _ _ _) as [prompt|e]; [|reflexivity].
  cbn [app]. now destruct (ask_gemini _ _ _ _ _ _ _ _).
Qed.

(** X10. A call of [gemini_qna] sends at most four requests and sleeps at
    most 35 seconds in all, whatever the clock and the endpoint do; each
    request carries the assembled prompt as its text, the API key in its
    URL and the JSON content type; when the prompt cannot be assembled the
    exception comes out and nothing is sent. *)
Theorem gemini_qna_bounds (env : Env) (host : Host)
    (report_paths student_files : pyseq Path) (readme_file : Path)
    (api_key explanation_in : string) :
  let run := gemini_qna env host report_paths student_files readme_file
               api_key explanation_in [] in
  (length (posts (snd run)) <= 4)%nat /\
  (qsum (waits (snd run)) <= 35)%Q /\
  (forall prompt,
     get_prompt host report_paths student_files readme_file explanation_in
       = Ok prompt ->
     Forall (eq (request api_key header prompt)) (requests (snd run))) /\
  (forall e,
     get_prompt host report_paths student_files readme_file explanation_in
       = Raise e ->
     run = (Raise e, [])).
Proof.
  cbv zeta. rewrite gemini_qna_run.
  destruct (get_prompt _ _ _ _ _) as [prompt|e].
  - split; [|split; [|split]].
    + rewrite ask_gemini_run. cbn [fst snd app].
      change (posts (EvClock (clock_of env []) :: ?tr)) with (posts tr).
      apply (loop_posts_bound env api_key header 5 3 60 (question_data prompt)
               (clock_of env []) (py_range (3 + 1))).
    + rewrite ask_gemini_run. cbn [fst snd app].
      change (waits (EvClock (clock_of env []) :: ?tr)) with (waits tr).
      eapply Qle_trans.
      * apply loop_wait_budget. discriminate.
      * vm_compute. discriminate.
    + intros p [= <-]. rewrite ask_gemini_run. cbn [fst snd app].
      change (requests (EvClock (clock_of env []) :: ?tr)) with (requests tr).
      apply loop_requests.
    + discriminate.
  - split; [simpl; lia|]. split; [discriminate|].
    split; [discriminate|]. now intros e' [= <-].
Qed.

Lemma gemini_qna_bounds_witness :
  gemini_qna (scripted [] (status_only 429) 0) sample_host
    (AsTuple [failed_json]) (AsList [a_py]) readme_md "key" "English" []
  = (Raise TypeError, []).
Proof.
  refine (proj2 (proj2 (proj2 (gemini_qna_bounds
            (scripted [] (status_only 429) 0) sample_host
            (AsTuple [failed_json]) (AsList [a_py]) readme_md
            "key" "English"))) TypeError _).
  reflexivity.
Defined.

(* ================================================================== *)
(** * Further properties of the prompt assembly *)

Section AssemblyFacts.
Variable host : Host.

Lemma mapM_file_section (fs : list Path) (ts : list string) :
  Forall2 (fun f t => host_fs host f = File t) fs ts ->
  mapM (file_section host) fs =
  Ok (map (fun ft => section_text (path_name (fst ft)) (snd ft))
        (combine fs ts)).
Proof.
  induction 1 as [|f t fs ts Hf _ IH]; simpl; [reflexivity|].
  unfold file_section at 1, read_text. rewrite Hf. simpl. rewrite IH.
  reflexivity.
Qed.

Lemma mapM_file_section_missing (pre post : list Path) (f : Path) :
  Forall (fun g => exists t, host_fs host g = File t) pre ->
  host_fs host f = Absent ->
  mapM (file_section host) (pre ++ f :: post) = Raise FileNotFoundError.
Proof.
  intros Hpre Hf. induction Hpre as [|g pre [t Hg] _ IH]; simpl.
  - unfold file_section, read_text. now rewrite Hf.
  - unfold file_section at 1, read_text. rewrite Hg. simpl. now rewrite IH.
Qed.

(** X11. For a tuple of student files that can all be read,
    [assignment_code] is the sections of the files in the given order, each
    made of the file's name and its text, joined by a blank line (the empty
    string for no file); the first file that does not exist makes it raise
    [FileNotFoundError] whatever the other files are. *)
Theorem assignment_code_files (fs : list Path) :
  (forall ts,
     Forall2 (fun f t => host_fs host f = File t) fs ts ->
     assignment_code host (AsTuple fs) =
     Ok (join (LF +++ LF)
           (map (fun ft => section_text (path_name (fst ft)) (snd ft))
              (combine fs ts)))) /\
  (fs = [] -> assignment_code host (AsTuple fs) = Ok "") /\
  (forall pre f post,
     fs = pre ++ f :: post ->
     Forall (fun g => exists t, host_fs host g = File t) pre ->
     host_fs host f = Absent ->
     assignment_code host (AsTuple fs) = Raise FileNotFoundError).
Proof.
  unfold assignment_code. cbn [lru_cache_key rbind]. split; [|split].
  - intros ts H. now rewrite (mapM_file_section _ _ H).
  - intros ->. reflexivity.
  - intros pre f post -> Hpre Hf.
    now rewrite (mapM_file_section_missing _ _ _ Hpre Hf).
Qed.

Lemma get_prompt_blocks (report_paths student_files : pyseq Path)
    (readme_file : Path) (explanation_in : string)
    (qs : list string) (i b c : string) :
  collect_longrepr_from_multiple_reports host report_paths explanation_in
    = Ok qs ->
  get_initial_instruction host qs explanation_in = Ok i ->
  get_instruction_block host readme_file explanation_in = Ok b ->
  get_student_code_block host student_files explanation_in = Ok c ->
  get_prompt host report_paths student_files readme_file explanation_in
  = Ok (join (LF +++ LF) (i :: b :: c :: qs)).
Proof.
  intros Hq Hi Hb Hc. unfold get_prompt.
  rewrite Hq. cbn [rbind]. rewrite Hi. cbn [rbind]. rewrite Hb. cbn [rbind].
  rewrite Hc. cbn [rbind]. now rewrite app_nil_r.
Qed.

Lemma instruction_block_text (readme_file : Path)
    (explanation_in s e t : string) :
  locale_entry host explanation_in "instruction_start" = Ok (PStr s) ->
  locale_entry host explanation_in "instruction_end" = Ok (PStr e) ->
  host_fs host readme_file = File t ->
  get_instruction_block host readme_file explanation_in =
  Ok ("## " +++ s +++ LF +++ t +++ LF +++ "## " +++ e +++ LF).
Proof.
  intros Hs He Ht. unfold get_instruction_block, assignment_instruction, read_text.
  rewrite Hs, He, Ht. reflexivity.
Qed.

Lemma code_block_text (student_files : pyseq Path)
    (explanation_in c he : string) :
  assignment_code host student_files = Ok c ->
  locale_entry host explanation_in "homework_end" = Ok (PStr he) ->
  get_student_code_block host student_files explanation_in =
  Ok (LF +++ LF +++
      "##### Start mutable code block" +++ LF +++
      "## {load_locale(explanation_in)['homework_start']}" +++ LF +++
      c +++ LF +++
      "## " +++ he +++ LF +++
      "##### End mutable code block" +++ LF).
Proof.
  intros Hc He. unfold get_student_code_block. now rewrite Hc, He.
Qed.

(** X12. When no report has a failing record, the prompt is three blocks
    joined by a blank line: the sentence asking, in the language's name, for
    a comment on the student code; the readme between the locale's
    instruction markers; the student code in its block.  Of the locale only
    [instruction_start], [instruction_end] and [homework_end] are read. *)
Theorem get_prompt_all_passed (report_paths student_files : pyseq Path)
    (readme_file : Path) (explanation_in s e he t c : string) :
  Forall (fun p => exists data,
            load_report host p = Ok data /\ no_failing_records data = true)
         (items report_paths) ->
  locale_entry host explanation_in "instruction_start" = Ok (PStr s) ->
  locale_entry host explanation_in "instruction_end" = Ok (PStr e) ->
  locale_entry host explanation_in "homework_end" = Ok (PStr he) ->
  host_fs host readme_file = File t ->
  assignment_code host student_files = Ok c ->
  get_prompt host report_paths student_files readme_file explanation_in =
  Ok (join (LF +++ LF)
        ["In " +++ explanation_in +++
         ", please comment on the student code given the assignment instruction.";
         "## " +++ s +++ LF +++ t +++ LF +++ "## " +++ e +++ LF;
         LF +++ LF +++
         "##### Start mutable code block" +++ LF +++
         "## {load_locale(explanation_in)['homework_start']}" +++ LF +++
         c +++ LF +++
         "## " +++ he +++ LF +++
         "##### End mutable code block" +++ LF]).
Proof.
  intros Hr Hs He Hhe Ht Hc.
  apply get_prompt_blocks.
  - unfold collect_longrepr_from_multiple_reports.
    rewrite (collect_reports_spec host _ _ [] (no_failing_Forall2 host _ Hr)).
    cbn [app rbind]. now rewrite concat_nils.
  - reflexivity.
  - now apply instruction_block_text.
  - now apply code_block_text.
Qed.

(** X13. When the reports have failure excerpts, the prompt is, joined by
    blank lines: the locale's directive followed by the request for comments
    on the failed test cases; the readme block; the student-code block; the
    report header line; every excerpt in the order of the reports; the
    report footer line. *)
Theorem get_prompt_with_failures (report_paths student_files : pyseq Path)
    (readme_file : Path) (explanation_in dv hd ft s e he t c : string)
    (ls : list (list string)) :
  Forall2 (fun p l => exists data,
             load_report host p = Ok data /\ collect_longrepr data = Ok l)
          (items report_paths) ls ->
  concat ls <> [] ->
  locale_entry host explanation_in "directive" = Ok (PStr dv) ->
  locale_entry host explanation_in "report_header" = Ok (PStr hd) ->
  locale_entry host explanation_in "report_footer" = Ok (PStr ft) ->
  locale_entry host explanation_in "instruction_start" = Ok (PStr s) ->
  locale_entry host explanation_in "instruction_end" = Ok (PStr e) ->
  locale_entry host explanation_in "homework_end" = Ok (PStr he) ->
  host_fs host readme_file = File t ->
  assignment_code host student_files = Ok c ->
  get_prompt host report_paths student_files readme_file explanation_in =
  Ok (join (LF +++ LF)
        ([(dv +++ LF) +++ LF +++
          "Please generate comments mutually exclusive and collectively exhaustive for the following failed test cases.";
          "## " +++ s +++ LF +++ t +++ LF +++ "## " +++ e +++ LF;
          LF +++ LF +++
          "##### Start mutable code block" +++ LF +++
          "## {load_locale(explanation_in)['homework_start']}" +++ LF +++
          c +++ LF +++
          "## " +++ he +++ LF +++
          "##### End mutable code block" +++ LF;
          "## " +++ hd +++ LF]
         ++ concat ls ++ ["## " +++ ft +++ LF])).
Proof.
  intros Hr Hne Hdv Hhd Hft Hs He Hhe Ht Hc.
  apply get_prompt_blocks.
  - unfold collect_longrepr_from_multiple_reports.
    rewrite (collect_reports_spec host _ _ [] Hr). cbn [app rbind].
    destruct (concat ls) as [|x xs]; [congruence|].
    unfold get_report_header, get_report_footer. rewrite Hhd, Hft. reflexivity.
  - unfold get_initial_instruction, get_directive. cbn [app].
    rewrite Hdv. reflexivity.
  - now apply instruction_block_text.
  - now apply code_block_text.
Qed.

End AssemblyFacts.

Lemma assignment_code_files_witness :
  assignment_code sample_host (AsTuple [a_py; a_py]) =
    Ok (section_text "a.py" "x=1" +++ (LF +++ LF) +++ section_text "a.py" "x=1")
  /\
  assignment_code sample_host (AsTuple [a_py; ["work"; "b.py"]; a_py]) =
    Raise FileNotFoundError.
Proof.
  destruct (assignment_code_files sample_host [a_py; a_py]) as [H1 _].
  destruct (assignment_code_files sample_host [a_py; ["work"; "b.py"]; a_py])
    as [_ [_ H3]].
  split.
  - apply (H1 ["x=1"; "x=1"]). repeat constructor.
  - apply (H3 [a_py] ["work"; "b.py"] [a_py] eq_refl).
    + repeat constructor. exists "x=1". reflexivity.
    + reflexivity.
Defined.

Lemma get_prompt_all_passed_witness :
  exists prompt,
    get_prompt sample_host (AsTuple [passed_json]) (AsTuple [a_py]) readme_md
      "English" = Ok prompt.
Proof.
  eexists.
  apply (get_prompt_all_passed sample_host (AsTuple [passed_json])
           (AsTuple [a_py]) readme_md "English"
           "Assignment Instruction Start" "Assignment Instruction End"
           "Homework Submission End" "Add two numbers"
           (section_text "a.py" "x=1")).
  - repeat constructor. exists passed_report. split; reflexivity.
  - reflexivity.
  - reflexivity.
  - reflexivity.
  - reflexivity.
  - reflexivity.
Defined.

Lemma get_prompt_with_failures_witness :
  exists prompt,
    get_prompt sample_host (AsTuple [passed_json; failed_json])
      (AsTuple [a_py]) readme_md "English" = Ok prompt.
Proof.
  eexists.
  apply (get_prompt_with_failures sample_host
           (AsTuple [passed_json; failed_json])
           (AsTuple [a_py]) readme_md "English"
           "Explain in English." "Error Message Start" "Error Message End"
           "Assignment Instruction Start" "Assignment Instruction End"
           "Homework Submission End" "Add two numbers"
           (section_text "a.py" "x=1")
           [[]; ["failed:call:AssertionError: 1 != 2";
                 "failed:metadata:noted by a plugin"]]).
  - repeat constructor.
    + exists passed_report. split; reflexivity.
    + exists failed_report. split; reflexivity.
  - discriminate.
  - reflexivity.
  - reflexivity.
  - reflexivity.
  - reflexivity.
  - reflexivity.
  - reflexivity.
  - reflexivity.
  - reflexivity.
Defined.

(* ================================================================== *)
(** * Further properties of the extraction and of the locale *)

Lemma collect_reports_raises (host : Host) (pre post : list Path) (p : Path)
    (ls : list (list string)) (questions : list string) (e : exn) :
  Forall2 (fun p l => exists data,
             load_report host p = Ok data /\ collect_longrepr data = Ok l)
          pre ls ->
  (load_report host p = Raise e \/
   exists data, load_report host p = Ok data /\ collect_longrepr data = Raise e) ->
  collect_reports host (pre ++ p :: post) questions = Raise e.
Proof.
  intros Hpre Hp. revert questions.
  induction Hpre as [|q l pre ls [data [Hl Hc]] _ IH]; intros questions; simpl.
  - destruct Hp as [Hp|[data [Hl Hc]]].
    + now rewrite Hp.
    + rewrite Hl. simpl. now rewrite Hc.
  - rewrite Hl. simpl. rewrite Hc. simpl. apply IH.
Qed.

(** X14. The first report that cannot be loaded, or whose records make the
    extraction raise, ends [collect_longrepr_from_multiple_reports] and
    [get_prompt] in that exception: the excerpts of the reports before it
    are dropped, the reports after it are not read and the locale is not
    consulted.  A report file that does not exist gives
    [FileNotFoundError]. *)
Theorem report_failure_aborts (host : Host)
    (report_paths student_files : pyseq Path) (readme_file : Path)
    (explanation_in : string)
    (pre post : list Path) (p : Path) (ls : list (list string)) (e : exn) :
  items report_paths = pre ++ p :: post ->
  Forall2 (fun p l => exists data,
             load_report host p = Ok data /\ collect_longrepr data = Ok l)
          pre ls ->
  (load_report host p = Raise e \/
   exists data, load_report host p = Ok data /\ collect_longrepr data = Raise e) ->
  collect_longrepr_from_multiple_reports host report_paths explanation_in
    = Raise e /\
  get_prompt host report_paths student_files readme_file explanation_in
    = Raise e /\
  (host_fs host p = Absent -> e = FileNotFoundError).
Proof.
  intros Hitems Hpre Hp.
  assert (collect_longrepr_from_multiple_reports host report_paths
            explanation_in = Raise e) as Hc.
  { unfold collect_longrepr_from_multiple_reports. rewrite Hitems.
    now rewrite (collect_reports_raises host pre post p ls [] e Hpre Hp). }
  split; [exact Hc|]. split.
  - unfold get_prompt. now rewrite Hc.
  - intros Hab. unfold load_report, read_text in Hp. rewrite Hab in Hp.
    simpl in Hp. destruct Hp as [[= <-]|[data [[=] _]]]. reflexivity.
Qed.

Lemma report_failure_aborts_witness :
  collect_longrepr_from_multiple_reports sample_host
    (AsTuple [failed_json; ["work"; "gone.json"]; passed_json]) "Klingon"
  = Raise FileNotFoundError.
Proof.
  refine (proj1 (report_failure_aborts sample_host
            (AsTuple [failed_json; ["work"; "gone.json"]; passed_json])
            (AsTuple [a_py]) readme_md "Klingon"
            [failed_json] [passed_json] ["work"; "gone.json"]
            [["failed:call:AssertionError: 1 != 2";
              "failed:metadata:noted by a plugin"]]
            FileNotFoundError eq_refl _ _)).
  - repeat constructor. exists failed_report. split; reflexivity.
  - left. reflexivity.
Defined.

(** *** The accumulator of the loops of [collect_longrepr] *)

Lemma prepend_prepend (a b : list string) (r : result (list string)) :
  prepend a (prepend b r) = prepend (a ++ b) r.
Proof.
  destruct r; simpl; [now rewrite app_assoc | reflexivity].
Qed.

Lemma collect_keys_acc (outcome : pyval) (d : pydict) (ks : list string) :
  forall acc,
  collect_keys outcome d ks acc = prepend acc (collect_keys outcome d ks []).
Proof.
  induction ks as [|k ks IH]; intros acc; simpl.
  - now rewrite app_nil_r.
  - destruct (dict_get k d) as [v|]; simpl; [|reflexivity].
    destruct v; try apply IH.
    destruct (dict_get "longrepr" d0) as [lr|]; [|apply IH].
    destruct (add_str outcome ":") as [s1|e]; simpl; [|reflexivity].
    destruct (str_add (s1 +++ k +++ ":") lr) as [s2|e]; simpl; [|reflexivity].
    rewrite (IH (acc ++ [s2])), (IH [s2]). now rewrite prepend_prepend.
Qed.

Lemma collect_record_acc (r : pyval) (acc : list string) :
  collect_record r acc = prepend acc (collect_record r []).
Proof.
  unfold collect_record.
  destruct (py_getitem r "outcome") as [o|e]; simpl; [|reflexivity].
  destruct (py_ne_str o "passed").
  - destruct r; try reflexivity. apply collect_keys_acc.
  - simpl. now rewrite app_nil_r.
Qed.

Lemma collect_tests_acc (rs : list pyval) :
  forall acc, collect_tests rs acc = prepend acc (collect_tests rs []).
Proof.
  induction rs as [|r rs IH]; intros acc; simpl.
  - now rewrite app_nil_r.
  - rewrite (collect_record_acc r acc).
    destruct (collect_record r []) as [l|e]; simpl; [|reflexivity].
    rewrite (IH (acc ++ l)), (IH l). now rewrite prepend_prepend.
Qed.

Lemma collect_tests_app (t1 t2 : list pyval) (acc : list string) :
  collect_tests (t1 ++ t2) acc = rbind (collect_tests t1 acc) (collect_tests t2).
Proof.
  revert acc. induction t1 as [|r t1 IH]; intros acc; simpl; [reflexivity|].
  destruct (collect_record r acc) as [l|e]; simpl; [apply IH | reflexivity].
Qed.

(** X15. Extraction goes record by record: for a report whose records are
    those of one report followed by those of another, [collect_longrepr]
    gives the excerpts of the first followed by the excerpts of the second,
    and raises what the first raises, else what the second raises; this
    holds for records of any shape. *)
Theorem collect_longrepr_app (data data1 data2 : pyval) (t1 t2 : list pyval) :
  py_getitem data1 "tests" = Ok (PList t1) ->
  py_getitem data2 "tests" = Ok (PList t2) ->
  py_getitem data "tests" = Ok (PList (t1 ++ t2)) ->
  collect_longrepr data =
  rbind (collect_longrepr data1) (fun l1 =>
  rbind (collect_longrepr data2) (fun l2 => Ok (l1 ++ l2))).
Proof.
  intros H1 H2 H. unfold collect_longrepr. rewrite H1, H2, H. simpl.
  rewrite collect_tests_app.
  destruct (collect_tests t1 []) as [l1|e]; simpl; [|reflexivity].
  apply collect_tests_acc.
Qed.

Lemma collect_longrepr_app_witness :
  collect_longrepr failed_report =
  Ok ([] ++ ["failed:call:AssertionError: 1 != 2";
             "failed:metadata:noted by a plugin"]).
Proof.
  exact (collect_longrepr_app failed_report passed_report
           (PDict [("tests", PList [PDict failed_record])])
           [PDict passed_rec] [PDict failed_record]
           eq_refl eq_refl eq_refl).
Defined.

Lemma collect_keys_bad_outcome (outcome : pyval) (d : pydict)
    (ks acc : list string) :
  (forall o, outcome <> PStr o) ->
  incl ks (dict_keys d) ->
  (exists k, In k ks /\ has_detail d k = true) ->
  collect_keys outcome d ks acc = Raise TypeError.
Proof.
  intros Ho. revert acc.
  induction ks as [|k ks IH]; intros acc Hincl [k0 [Hin Hk0]];
    [contradiction|].
  assert (incl ks (dict_keys d)) as Hks
    by (intros x Hx; apply Hincl; now right).
  destruct (In_keys_get k d) as [v Hv]; [apply Hincl; now left|].
  simpl. rewrite Hv. simpl.
  assert (has_detail d k = true \/ has_detail d k = false) as [Hk|Hk]
    by (destruct (has_detail d k); auto).
  - unfold has_detail in Hk. rewrite Hv in Hk.
    destruct v; try discriminate. simpl in Hk.
    destruct (dict_get "longrepr" d0); [|discriminate].
    destruct outcome; try reflexivity. exfalso. now apply (Ho s).
  - assert (exists k', In k' ks /\ has_detail d k' = true) as Hex.
    { destruct Hin as [<-|Hin]; [congruence|]. eauto. }
    unfold has_detail in Hk. rewrite Hv in Hk.
    destruct v; try (now apply IH). simpl in Hk.
    destruct (dict_get "longrepr" d0); [discriminate|]. now apply IH.
Qed.

(** X16. After any number of well-formed records, a record that is a
    mapping without ['outcome'] makes [collect_longrepr] raise [KeyError],
    a record that is not a mapping makes it raise [TypeError], and so does a
    record whose outcome is not a string when one of its phases has failure
    detail; the excerpts collected before are lost with the exception. *)
Theorem collect_longrepr_bad_record (data : pyval) (pre : list pydict)
    (r : pyval) (post : list pyval) :
  py_getitem data "tests" = Ok (PList (map PDict pre ++ r :: post)) ->
  forallb wf_record pre = true ->
  (forall d, r = PDict d -> dict_get "outcome" d = None ->
     collect_longrepr data = Raise (KeyError (PStr "outcome"))) /\
  ((forall d, r <> PDict d) -> collect_longrepr data = Raise TypeError) /\
  (forall d outcome k,
     r = PDict d -> dict_get "outcome" d = Some outcome ->
     (forall o, outcome <> PStr o) ->
     In k (dict_keys d) -> has_detail d k = true ->
     collect_longrepr data = Raise TypeError).
Proof.
  intros Hget Hwf.
  assert (forall e, collect_record r (map excerpt_of (failure_pairs pre))
                    = Raise e -> collect_longrepr data = Raise e) as Hstep.
  { intros e He. unfold collect_longrepr. rewrite Hget. simpl.
    rewrite collect_tests_app, (collect_tests_spec pre [] Hwf). simpl.
    now rewrite He. }
  split; [|split].
  - intros d -> Ho. apply Hstep. unfold collect_record. simpl. now rewrite Ho.
  - intros Hr. apply Hstep. unfold collect_record.
    destruct r; try reflexivity. exfalso. now apply (Hr d).
  - intros d outcome k -> Ho Hns Hk Hd. apply Hstep.
    unfold collect_record. simpl. rewrite Ho. simpl.
    assert (py_ne_str outcome "passed" = true) as ->.
    { destruct outcome; try reflexivity. exfalso. now apply (Hns s). }
    apply collect_keys_bad_outcome; try assumption; [apply incl_refl | eauto].
Qed.

Lemma collect_longrepr_bad_record_witness :
  collect_longrepr
    (PDict [("tests", PList [PDict failed_record;
                             PDict [("nodeid", PStr "t")]])])
    = Raise (KeyError (PStr "outcome")) /\
  collect_longrepr
    (PDict [("tests", PList [PDict failed_record; PStr "oops"])])
    = Raise TypeError /\
  collect_longrepr
    (PDict [("tests", PList [PDict failed_record;
                             PDict [("outcome", PNone);
                                    ("call", PDict [("longrepr", PStr "x")])]])])
    = Raise TypeError.
Proof.
  split; [|split].
  - refine (proj1 (collect_longrepr_bad_record
                     (PDict [("tests", PList [PDict failed_record;
                                              PDict [("nodeid", PStr "t")]])])
                     [failed_record]
                     (PDict [("nodeid", PStr "t")]) [] eq_refl eq_refl)
              _ eq_refl eq_refl).
  - refine (proj1 (proj2 (collect_longrepr_bad_record
                     (PDict [("tests", PList [PDict failed_record; PStr "oops"])])
                     [failed_record]
                     (PStr "oops") [] eq_refl eq_refl)) _).
    discriminate.
  - refine (proj2 (proj2 (collect_longrepr_bad_record
                     (PDict [("tests", PList [PDict failed_record;
                        PDict [("outcome", PNone);
                               ("call", PDict [("longrepr", PStr "x")])]])])
                     [failed_record]
                     (PDict [("outcome", PNone);
                             ("call", PDict [("longrepr", PStr "x")])])
                     [] eq_refl eq_refl))
              _ PNone "call" eq_refl eq_refl _ _ eq_refl).
    + discriminate.
    + simpl. auto.
Defined.

(** X17. [load_locale] checks the locale folder before the file: without the
    folder it fails with "Locale folder not found", with something that is
    not a directory in its place with "Locale folder is not a directory",
    and with a directory where the locale file should be with "Locale file
    is not a file"; each is an [AssertionError] naming the path, and the
    file is not read. *)
Theorem load_locale_assertions (host : Host) (explain_in : string) :
  let locale_folder := path_div (host_module_dir host) "locale" in
  let locale_file := path_div locale_folder (explain_in +++ ".json") in
  (host_fs host locale_folder = Absent ->
     load_locale host explain_in =
     Raise (AssertionError
              ("Locale folder not found: " +++ path_str locale_folder))) /\
  (forall t, host_fs host locale_folder = File t ->
     load_locale host explain_in =
     Raise (AssertionError
              ("Locale folder is not a directory: " +++ path_str locale_folder))) /\
  (host_fs host locale_folder = Directory ->
   host_fs host locale_file = Directory ->
     load_locale host explain_in =
     Raise (AssertionError
              ("Locale file is not a file: " +++ path_str locale_file))).
Proof.
  cbv zeta. unfold load_locale, exists_, is_dir, is_file, read_text.
  split; [|split].
  - intros ->. reflexivity.
  - intros t ->. reflexivity.
  - intros -> ->. reflexivity.
Qed.

Lemma load_locale_assertions_witness :
  load_locale
    {| host_fs := fun _ => Absent;
       host_json_loads := sample_loads;
       host_module_dir := ["app"];
       host_str := fun _ => "" |} "English"
  = Raise (AssertionError "Locale folder not found: app/locale") /\
  load_locale
    {| host_fs := fun _ => Directory;
       host_json_loads := sample_loads;
       host_module_dir := ["/"; "app"];
       host_str := fun _ => "" |} "a//b/./c"
  = Raise (AssertionError "Locale file is not a file: /app/locale/a/b/c.json").
Proof.
  split.
  - exact (proj1 (load_locale_assertions
                    {| host_fs := fun _ => Absent;
                       host_json_loads := sample_loads;
                       host_module_dir := ["app"];
                       host_str := fun _ => "" |} "English") eq_refl).
  - exact (proj2 (proj2 (load_locale_assertions
                    {| host_fs := fun _ => Directory;
                       host_json_loads := sample_loads;
                       host_module_dir := ["/"; "app"];
                       host_str := fun _ => "" |} "a//b/./c")) eq_refl eq_refl).
Defined.
